(** * The podcast preview card: a model of the <podcast-card> element

    The repository holds two versions of one custom element:
    - [src/podcastCard.js] (first part): an attribute-only card, modelled
      in [Module SimpleCard];
    - [src/createPodcastCard.js]: the card with a settable [podcast]
      property, a click listener and an attribute fallback, modelled in
      [Module PodcastCard].

    JavaScript values are embedded as an inductive type, objects (the
    podcast records) live in a store indexed by references so that
    aliasing and mutation can be stated, and the methods of the element
    are state transformers over the element, the store and the list of
    events dispatched so far.  A method may throw: every computation
    returns a completion. *)

From Stdlib Require Import ZArith String Ascii DecimalString.
From stdpp Require Import gmap strings list fin_maps.

Set Warnings "-register-all".

Open Scope string_scope.

(** ** JavaScript values *)

Module JS.

(** Numbers: the integer-valued doubles, NaN and the two infinities.  No
    branch of the card looks at a fractional part. *)
Inductive Number : Type :=
| NInt (z : Z)
| NNaN
| NInf (negative : bool).

(** References into the object store. *)
Definition loc : Type := positive.

(** Arrays are kept as immutable sequences (the card only reads them);
    plain objects are references. *)
Inductive JSValue : Type :=
| JUndefined
| JNull
| JBool (b : bool)
| JNumber (n : Number)
| JString (s : string)
| JSymbol (description : string)
| JArray (elems : list JSValue)
| JObject (l : loc).

(** A plain object: its own string-keyed data properties.  Its prototype
    is Object.prototype and no property is a function or an accessor. *)
Abbreviation Obj := (gmap string JSValue).
Abbreviation Heap := (gmap loc (gmap string JSValue)).

(** The only exception the card can raise. *)
Inductive Error : Type :=
| TypeError.

(** The result of evaluating an expression: a value or a thrown error. *)
Inductive completion (A : Type) : Type :=
| Normal (a : A)
| Throw (e : Error).
Arguments Normal {A} a.
Arguments Throw {A} e.

Definition cbind {A B : Type} (c : completion A) (k : A -> completion B)
  : completion B :=
  match c with
  | Normal a => k a
  | Throw e => Throw e
  end.

Declare Scope completion_scope.
Delimit Scope completion_scope with completion.
Notation "x <- c ;; k" := (cbind c (fun x => k))
  (at level 100, c at next level, right associativity) : completion_scope.

(** ToBoolean: the falsy values are undefined, null, false, 0, NaN and
    the empty string. *)
Definition ToBoolean (v : JSValue) : bool :=
  match v with
  | JUndefined | JNull => false
  | JBool b => b
  | JNumber (NInt z) => negb (Z.eqb z 0)
  | JNumber NNaN => false
  | JNumber (NInf _) => true
  | JString s => negb (String.eqb s "")
  | JSymbol _ | JArray _ | JObject _ => true
  end.

(** [a || b] *)
Definition or_else (a b : JSValue) : JSValue :=
  if ToBoolean a then a else b.

(** Number.prototype.toString: the decimal digits of an integer (as
    JavaScript prints those below 10^21). *)
Definition Number_toString (n : Number) : string :=
  match n with
  | NInt z => NilZero.string_of_int (Z.to_int z)
  | NNaN => "NaN"
  | NInf false => "Infinity"
  | NInf true => "-Infinity"
  end.

(** Whether the object at [l] has an own property [toString].  Such a
    property is not callable here, so the string conversion of the
    object finds no usable method and throws. *)
Definition own_toString (h : Heap) (l : loc) : bool :=
  match h !! l with
  | Some o => bool_decide (is_Some (o !! "toString"))
  | None => false
  end.

Definition is_nullish (v : JSValue) : bool :=
  match v with
  | JUndefined | JNull => true
  | _ => false
  end.

(** ToString, as a template literal and Array.prototype.join apply it.
    An array converts through join with a comma; a hole for undefined
    and null elements. *)
Fixpoint ToString (h : Heap) (v : JSValue) : completion string :=
  match v with
  | JUndefined => Normal "undefined"
  | JNull => Normal "null"
  | JBool true => Normal "true"
  | JBool false => Normal "false"
  | JNumber n => Normal (Number_toString n)
  | JString s => Normal s
  | JSymbol _ => Throw TypeError
  | JArray elems =>
      cbind
        ((fix element_strings (l : list JSValue) : completion (list string) :=
            match l with
            | [] => Normal []
            | x :: r =>
                cbind (if is_nullish x then Normal "" else ToString h x)
                  (fun s => cbind (element_strings r)
                     (fun ss => Normal (s :: ss)))
            end) elems)
        (fun ss => Normal (String.concat "," ss))
  | JObject l =>
      if own_toString h l then Throw TypeError
      else Normal "[object Object]"
  end.

(** The strings of the elements of an array, as join computes them. *)
Fixpoint element_strings (h : Heap) (l : list JSValue)
  : completion (list string) :=
  match l with
  | [] => Normal []
  | x :: r =>
      (s <- (if is_nullish x then Normal "" else ToString h x) ;;
       ss <- element_strings h r ;;
       Normal (s :: ss))%completion
  end.

(** Array.prototype.join(sep) *)
Definition Array_join (h : Heap) (sep : string) (elems : list JSValue)
  : completion string :=
  (ss <- element_strings h elems ;; Normal (String.concat sep ss))%completion.

(** [v.name]: an own data property of a plain object; undefined on
    anything else the card can hold, since none of the names it reads
    (title, image, genres, seasons, updated) is on a built-in
    prototype.  Reading a property of undefined or null throws. *)
Definition Get (h : Heap) (v : JSValue) (name : string) : completion JSValue :=
  match v with
  | JUndefined | JNull => Throw TypeError
  | JObject l =>
      match h !! l with
      | Some o => Normal (default JUndefined (o !! name))
      | None => Normal JUndefined
      end
  | _ => Normal JUndefined
  end.

End JS.

(** ** Markup shared by the two cards *)

(** The double quote character, as the templates write it around
    attribute values. *)
Definition dq : string := String (ascii_of_nat 34) EmptyString.

(** ** The attribute-only card of [src/podcastCard.js] *)

Module SimpleCard.

Record Element : Type := {
  attributes : gmap string string;
  shadowRoot_innerHTML : string
}.

(** [this.getAttribute(name)]: the value, or null. *)
Definition getAttribute (e : Element) (name : string) : option string :=
  attributes e !! name.

(** [this.getAttribute(name) || fallback]: null and the empty string
    are the falsy results of getAttribute. *)
Definition attribute_or (e : Element) (name fallback : string) : string :=
  match getAttribute e name with
  | Some s => if String.eqb s "" then fallback else s
  | None => fallback
  end.

Definition card_style : string :=
"
      <style>
        .card {
          display: grid;
          grid-template-rows: auto 1fr;
          border-radius: 8px;
          box-shadow: 0 2px 6px rgba(0,0,0,0.1);
          overflow: hidden;
          cursor: pointer;
          transition: transform 0.2s ease;
        }
        .card:hover {
          transform: scale(1.02);
        }
        img {
          width: 100%;
          height: 150px;
          object-fit: cover;
        }
        .content {
          padding: 1rem;
        }
        h3 {
          margin: 0 0 .5rem;
          font-size: 1.2rem;
        }
        p {
          margin: 0;
          font-size: 0.9rem;
          color: #666;
        }
      </style>
".

(** The template literal assigned to [this.shadowRoot.innerHTML]. *)
Definition fragment (image title description : string) : string :=
  card_style +:+
  "      <div class=" +:+ dq +:+ "card" +:+ dq +:+ ">
        <img src=" +:+ dq +:+ image +:+ dq +:+ " alt=" +:+ dq +:+ title +:+ dq +:+ ">
        <div class=" +:+ dq +:+ "content" +:+ dq +:+ ">
          <h3>" +:+ title +:+ "</h3>
          <p>" +:+ description +:+ "</p>
        </div>
      </div>
    ".

Definition render (e : Element) : Element :=
  let title := attribute_or e "title" "Untitled Podcast" in
  let image := attribute_or e "image" "placeholder.jpg" in
  let description := attribute_or e "description" "No description available" in
  {| attributes := attributes e;
     shadowRoot_innerHTML := fragment image title description |}.

End SimpleCard.

(** ** The card of [src/createPodcastCard.js] *)

Module PodcastCard.
Import JS.

(** The notification a click dispatches. *)
Record Detail : Type := { podcast : JSValue }.

Record CustomEvent : Type := {
  type : string;
  detail : Detail;
  bubbles : bool;
  composed : bool
}.

(** The element, the object store it shares with its caller, and what an
    outside observer sees of it: the events dispatched on the element
    and (a ghost counter) how often [render] was entered. *)
Record State : Type := {
  heap : Heap;
  _podcast : JSValue;
  attributes : gmap string string;
  shadowRoot_innerHTML : string;
  dispatched : list CustomEvent;
  render_calls : nat
}.

Definition with_heap (h : Heap) (s : State) : State :=
  {| heap := h; _podcast := _podcast s; attributes := attributes s;
     shadowRoot_innerHTML := shadowRoot_innerHTML s;
     dispatched := dispatched s; render_calls := render_calls s |}.

Definition with_podcast (v : JSValue) (s : State) : State :=
  {| heap := heap s; _podcast := v; attributes := attributes s;
     shadowRoot_innerHTML := shadowRoot_innerHTML s;
     dispatched := dispatched s; render_calls := render_calls s |}.

Definition with_attributes (a : gmap string string) (s : State) : State :=
  {| heap := heap s; _podcast := _podcast s; attributes := a;
     shadowRoot_innerHTML := shadowRoot_innerHTML s;
     dispatched := dispatched s; render_calls := render_calls s |}.

Definition with_innerHTML (html : string) (s : State) : State :=
  {| heap := heap s; _podcast := _podcast s; attributes := attributes s;
     shadowRoot_innerHTML := html;
     dispatched := dispatched s; render_calls := render_calls s |}.

Definition with_dispatched (evs : list CustomEvent) (s : State) : State :=
  {| heap := heap s; _podcast := _podcast s; attributes := attributes s;
     shadowRoot_innerHTML := shadowRoot_innerHTML s;
     dispatched := evs; render_calls := render_calls s |}.

Definition with_render_calls (n : nat) (s : State) : State :=
  {| heap := heap s; _podcast := _podcast s; attributes := attributes s;
     shadowRoot_innerHTML := shadowRoot_innerHTML s;
     dispatched := dispatched s; render_calls := n |}.

(** Methods: state transformers that complete normally or throw.  A
    throw keeps the state reached so far. *)
Definition M (A : Type) : Type := State -> State * completion A.

Definition ret {A : Type} (a : A) : M A := fun s => (s, Normal a).

Definition bind {A B : Type} (m : M A) (k : A -> M B) : M B :=
  fun s =>
    match m s with
    | (s', Normal a) => k a s'
    | (s', Throw e) => (s', Throw e)
    end.

Definition lift {A : Type} (c : completion A) : M A := fun s => (s, c).
Definition gets {A : Type} (f : State -> A) : M A := fun s => (s, Normal (f s)).
Definition modify (f : State -> State) : M unit := fun s => (f s, Normal tt).

Declare Scope method_scope.
Delimit Scope method_scope with method.
Notation "x <- m ;; k" := (bind m (fun x => k))
  (at level 100, m at next level, right associativity) : method_scope.
Notation "m ;; k" := (bind m (fun _ => k))
  (at level 100, right associativity) : method_scope.

(** The state a method leaves and how it completed. *)
Definition exec {A : Type} (m : M A) (s : State) : State := fst (m s).
Definition outcome {A : Type} (m : M A) (s : State) : completion A := snd (m s).

(** A new object literal: stored at a reference not in use. *)
Definition alloc (o : gmap string JSValue) : M JSValue :=
  fun s =>
    let l := fresh (dom (heap s)) in
    (with_heap (<[l := o]> (heap s)) s, Normal (JObject l)).

(** [this.getAttribute(name)] *)
Definition getAttribute (name : string) : M JSValue :=
  gets (fun s =>
          match attributes s !! name with
          | Some v => JString v
          | None => JNull
          end).

(** [new PodcastCard()] with the attributes the parser gave it: the
    shadow root is empty, [_podcast] is null and the click listener
    ([on_click] below) is attached to the shadow root. *)
Definition constructor (h : Heap) (attrs : gmap string string) : State :=
  {| heap := h; _podcast := JNull; attributes := attrs;
     shadowRoot_innerHTML := ""; dispatched := []; render_calls := 0 |}.

Definition observedAttributes : list string :=
  ["title"; "image"; "description"; "genres"; "seasons"; "updated"].

Definition _attributesToObject : M JSValue :=
  (title <- getAttribute "title" ;;
   image <- getAttribute "image" ;;
   description <- getAttribute "description" ;;
   genres <- getAttribute "genres" ;;
   seasons <- getAttribute "seasons" ;;
   updated <- getAttribute "updated" ;;
   alloc (<["title" := title]> (<["image" := image]>
          (<["description" := description]> (<["genres" := genres]>
          (<["seasons" := seasons]> (<["updated" := updated]> ∅)))))))%method.

(** [this._podcast || this._attributesToObject()], the expression both
    [render] and the click listener start from. *)
Definition podcast_or_attributes : M JSValue :=
  (p <- gets _podcast ;;
   if ToBoolean p then ret p else _attributesToObject)%method.

Definition card_style : string :=
"
      <style>
        :host {
          display: block;
          max-width: 300px;
          margin: 0 auto;
        }
        .card {
          display: flex;
          flex-direction: column;
          border-radius: 12px;
          box-shadow: 0 2px 6px rgba(0,0,0,0.1);
          overflow: hidden;
          cursor: pointer;
          transition: transform 0.2s ease;
          background: #fff;
        }
        .card:hover {
          transform: scale(1.02);
        }
        img {
          width: 100%;
          aspect-ratio: 1/1;
          object-fit: cover;
        }
        .content {
          padding: 1rem;
          display: flex;
          flex-direction: column;
          gap: .25rem;
        }
        h3 {
          margin: 0;
          font-size: 1.1rem;
          font-weight: 600;
        }
        .meta {
          font-size: 0.85rem;
          color: #555;
        }
        @media (min-width: 600px) {
          :host {
            max-width: 250px;
          }
        }
      </style>
".

(** The two conditional lines of the template. *)
Definition genres_line (genres : string) : string :=
  "<div class=" +:+ dq +:+ "meta" +:+ dq +:+ ">Genres: " +:+ genres +:+ "</div>".

Definition updated_line (updated : string) : string :=
  "<div class=" +:+ dq +:+ "meta" +:+ dq +:+ ">Last updated: " +:+ updated +:+ "</div>".

(** The template literal assigned to [this.shadowRoot.innerHTML], after
    its substitutions were converted to strings. *)
Definition fragment (image title genres_meta seasons updated_meta : string)
  : string :=
  card_style +:+
  "      <div class=" +:+ dq +:+ "card" +:+ dq +:+ ">
        <img src=" +:+ dq +:+ image +:+ dq +:+ " alt=" +:+ dq +:+ title +:+ dq +:+ ">
        <div class=" +:+ dq +:+ "content" +:+ dq +:+ ">
          <h3>" +:+ title +:+ "</h3>
          " +:+ genres_meta +:+ "
          <div class=" +:+ dq +:+ "meta" +:+ dq +:+ ">Seasons: " +:+ seasons +:+ "</div>
          " +:+ updated_meta +:+ "
        </div>
      </div>
    ".

Section Render.

(** The platform's date handling: the string that
    [new Date(v).toLocaleDateString(undefined, {year, month, day})]
    gives for a primitive [v] other than a symbol.  It depends on the
    locale and the time zone of the browser. *)
Variable localeDate : JSValue -> string.

(** [new Date(v).toLocaleDateString(...)]: the Date constructor first
    converts an object to a primitive, which for an array and a plain
    object is their string conversion, and rejects a symbol. *)
Definition Date_toLocaleDateString (h : Heap) (v : JSValue)
  : completion string :=
  match v with
  | JSymbol _ => Throw TypeError
  | JArray _ | JObject _ =>
      (s <- ToString h v ;; Normal (localeDate (JString s)))%completion
  | _ => Normal (localeDate v)
  end.

(** The five constants [render] computes from [data]. *)
Definition title_of (h : Heap) (data : JSValue) : completion JSValue :=
  (t <- Get h data "title" ;;
   Normal (or_else t (JString "Untitled Podcast")))%completion.

Definition image_of (h : Heap) (data : JSValue) : completion JSValue :=
  (i <- Get h data "image" ;;
   Normal (or_else i (JString "placeholder.jpg")))%completion.

Definition genres_of (h : Heap) (data : JSValue) : completion JSValue :=
  (g <- Get h data "genres" ;;
   match g with
   | JArray elems => s <- Array_join h ", " elems ;; Normal (JString s)
   | _ => Normal (or_else g (JString ""))
   end)%completion.

Definition seasons_of (h : Heap) (data : JSValue) : completion JSValue :=
  (n <- Get h data "seasons" ;;
   Normal (or_else n (JString "—")))%completion.

Definition updated_of (h : Heap) (data : JSValue) : completion string :=
  (u <- Get h data "updated" ;;
   if ToBoolean u then Date_toLocaleDateString h u else Normal "")%completion.

(** The two conditional substitutions of the template: the genres and
    the date lines appear only for a truthy value. *)
Definition genres_meta (h : Heap) (genres : JSValue) : completion string :=
  (if ToBoolean genres
   then g <- ToString h genres ;; Normal (genres_line g)
   else Normal "")%completion.

Definition updated_meta (updated : string) : string :=
  if ToBoolean (JString updated) then updated_line updated else "".

(** The template literal: each substitution is converted with ToString,
    from left to right. *)
Definition template (h : Heap) (image title genres seasons : JSValue)
    (updated : string) : completion string :=
  (image_s <- ToString h image ;;
   title_s <- ToString h title ;;
   genres_m <- genres_meta h genres ;;
   seasons_s <- ToString h seasons ;;
   Normal (fragment image_s title_s genres_m seasons_s (updated_meta updated))
  )%completion.

(** What [render] assigns to the shadow root, as a function of the store
    and the record. *)
Definition render_markup (h : Heap) (data : JSValue) : completion string :=
  (title <- title_of h data ;;
   image <- image_of h data ;;
   genres <- genres_of h data ;;
   seasons <- seasons_of h data ;;
   updated <- updated_of h data ;;
   template h image title genres seasons updated)%completion.

Definition render : M unit :=
  (modify (fun s => with_render_calls (S (render_calls s)) s) ;;
   data <- podcast_or_attributes ;;
   h <- gets heap ;;
   html <- lift (render_markup h data) ;;
   modify (with_innerHTML html))%method.

Definition connectedCallback : M unit := render.

(** [oldValue] and [newValue] are strings or null. *)
Definition attributeChangedCallback (name : string)
    (oldValue newValue : option string) : M unit :=
  if bool_decide (oldValue <> newValue) then render else ret tt.

(** [set podcast(data)] and [get podcast()] *)
Definition set_podcast (data : JSValue) : M unit :=
  (modify (with_podcast data) ;; render)%method.

Definition get_podcast : M JSValue := gets _podcast.

Definition dispatchEvent (ev : CustomEvent) : M unit :=
  modify (fun s => with_dispatched (dispatched s ++ [ev]) s).

(** The click listener the constructor attaches to the shadow root. *)
Definition on_click : M unit :=
  (data <- podcast_or_attributes ;;
   dispatchEvent {| type := "podcast-selected";
                    detail := {| podcast := data |};
                    bubbles := true;
                    composed := true |})%method.

(** The platform side of the attribute channel: [setAttribute] stores
    the value and then calls [attributeChangedCallback] for an observed
    name, whether or not the value changed. *)
Definition setAttribute (name value : string) : M unit :=
  (old <- gets (fun s => attributes s !! name) ;;
   modify (fun s => with_attributes (<[name := value]> (attributes s)) s) ;;
   if bool_decide (name ∈ observedAttributes)
   then attributeChangedCallback name old (Some value)
   else ret tt)%method.

End Render.

End PodcastCard.

(** ** Reading a fragment as markup

    What the parser behind [innerHTML] finds in a fragment, as far as
    scripting goes: the start tags and the attribute names.  The scanner
    follows the states of the HTML tokenizer for tags and attributes
    (names are case-insensitive; character references, comments and
    raw-text elements are not told apart). *)

Module Html.

Inductive token : Type :=
| StartTag (name : string)
| Attribute (name : string).

Inductive mode : Type :=
| Data
| TagOpen
| TagName (name : string)
| Markup
| BeforeAttribute
| AttributeName (name : string)
| AfterAttributeName
| BeforeValue
| ValueDouble
| ValueSingle
| ValueUnquoted.

Definition quote : ascii := ascii_of_nat 34.
Definition apostrophe : ascii := ascii_of_nat 39.

Definition is_space (c : ascii) : bool :=
  let n := nat_of_ascii c in
  Nat.eqb n 32 || Nat.eqb n 9 || Nat.eqb n 10 || Nat.eqb n 12 || Nat.eqb n 13.

Definition is_letter (c : ascii) : bool :=
  let n := nat_of_ascii c in
  (Nat.leb 65 n && Nat.leb n 90) || (Nat.leb 97 n && Nat.leb n 122).

Definition lower (c : ascii) : ascii :=
  let n := nat_of_ascii c in
  if Nat.leb 65 n && Nat.leb n 90 then ascii_of_nat (n + 32) else c.

Definition snoc (s : string) (c : ascii) : string :=
  s +:+ String c EmptyString.

(** One character: the tokens it completes and the next state. *)
Definition step (m : mode) (c : ascii) : list token * mode :=
  match m with
  | Data =>
      if Ascii.eqb c "<" then ([], TagOpen) else ([], Data)
  | TagOpen =>
      if is_letter c then ([], TagName (String (lower c) EmptyString))
      else if Ascii.eqb c "/" || Ascii.eqb c "!" || Ascii.eqb c "?"
      then ([], Markup)
      else if Ascii.eqb c "<" then ([], TagOpen)
      else ([], Data)
  | TagName n =>
      if is_space c || Ascii.eqb c "/" then ([StartTag n], BeforeAttribute)
      else if Ascii.eqb c ">" then ([StartTag n], Data)
      else ([], TagName (snoc n (lower c)))
  | Markup =>
      if Ascii.eqb c ">" then ([], Data) else ([], Markup)
  | BeforeAttribute =>
      if is_space c || Ascii.eqb c "/" then ([], BeforeAttribute)
      else if Ascii.eqb c ">" then ([], Data)
      else ([], AttributeName (String (lower c) EmptyString))
  | AttributeName n =>
      if is_space c then ([Attribute n], AfterAttributeName)
      else if Ascii.eqb c "/" then ([Attribute n], BeforeAttribute)
      else if Ascii.eqb c "=" then ([Attribute n], BeforeValue)
      else if Ascii.eqb c ">" then ([Attribute n], Data)
      else ([], AttributeName (snoc n (lower c)))
  | AfterAttributeName =>
      if is_space c then ([], AfterAttributeName)
      else if Ascii.eqb c "/" then ([], BeforeAttribute)
      else if Ascii.eqb c "=" then ([], BeforeValue)
      else if Ascii.eqb c ">" then ([], Data)
      else ([], AttributeName (String (lower c) EmptyString))
  | BeforeValue =>
      if is_space c then ([], BeforeValue)
      else if Ascii.eqb c quote then ([], ValueDouble)
      else if Ascii.eqb c apostrophe then ([], ValueSingle)
      else if Ascii.eqb c ">" then ([], Data)
      else ([], ValueUnquoted)
  | ValueDouble =>
      if Ascii.eqb c quote then ([], BeforeAttribute) else ([], ValueDouble)
  | ValueSingle =>
      if Ascii.eqb c apostrophe then ([], BeforeAttribute)
      else ([], ValueSingle)
  | ValueUnquoted =>
      if is_space c then ([], BeforeAttribute)
      else if Ascii.eqb c ">" then ([], Data)
      else ([], ValueUnquoted)
  end.

Fixpoint scan (m : mode) (s : string) : list token * mode :=
  match s with
  | EmptyString => ([], m)
  | String c r =>
      let (out, m') := step m c in
      let (rest, m'') := scan m' r in
      ((out ++ rest)%list, m'')
  end.

(** The tokens found in [s] when the scanner starts in state [m], and
    the state it ends in. *)
Definition tokens_from (m : mode) (s : string) : list token := fst (scan m s).
Definition mode_after (m : mode) (s : string) : mode := snd (scan m s).

Definition tokens (s : string) : list token := tokens_from Data s.

(** What makes the browser run code when the fragment is inserted: a
    script element, or an event-handler attribute (onerror, onclick,
    ...). *)
Definition executable (t : token) : bool :=
  match t with
  | StartTag n => String.eqb n "script"
  | Attribute n => String.prefix "on" n
  end.

Definition script_free (s : string) : bool :=
  forallb (fun t => negb (executable t)) (tokens s).

(** Text that can neither open a tag nor close a quoted attribute
    value. *)
Definition inert (s : string) : bool :=
  forallb (fun c => negb (Ascii.eqb c "<" || Ascii.eqb c quote))
          (list_ascii_of_string s).

End Html.

(** ** The card factory of [src/createPodcastCard.js] *)

Module CardFactory.
Import JS.

(** [<span class="tag">${g}</span>], with the quotes of the source. *)
Definition tag_span (g : string) : string :=
  "<span class=" +:+ dq +:+ "tag" +:+ dq +:+ ">" +:+ g +:+ "</span>".

(** The template literal assigned to [card.innerHTML], after its
    substitutions were converted to strings. *)
Definition fragment (image title seasons plural tags updated : string)
  : string :=
  "
    <img src=" +:+ dq +:+ image +:+ dq +:+ " alt=" +:+ dq +:+ title +:+ " cover" +:+ dq +:+ "/>
    <h3>" +:+ title +:+ "</h3>
    <p>" +:+ seasons +:+ " season" +:+ plural +:+ "</p>
    <div class=" +:+ dq +:+ "tags" +:+ dq +:+ ">" +:+ tags +:+ "</div>
    <p class=" +:+ dq +:+ "updated-text" +:+ dq +:+ ">" +:+ updated +:+ "</p>
  ".

Section Factory.

(** The two collaborators, whose modules are not among the sources:
    [GenreService.getNames] gives the elements of the array of names it
    returns, [DateUtils.format] the value it returns; either may
    throw. *)
Variable GenreService_getNames : JSValue -> completion (list JSValue).
Variable DateUtils_format : JSValue -> completion JSValue.

(** The platform's reading of a string as a number, compared with 1
    ([s > 1] for a string [s]). *)
Variable string_exceeds_one : string -> bool.

(** The caller's state, on which its [onClick] acts. *)
Variable World : Type.

(** The div the factory builds: what the caller can read of it, and
    its click listeners. *)
Record HTMLDivElement : Type := {
  className : string;
  dataset_id : string;
  innerHTML : string;
  click_listeners : list (World -> World)
}.

(** [v > 1]: the operand is converted to a primitive, then to a
    number; undefined and NaN compare false, a symbol throws. *)
Definition exceeds_one (h : Heap) (v : JSValue) : completion bool :=
  match v with
  | JUndefined | JNull | JBool _ => Normal false
  | JNumber (NInt z) => Normal (Z.ltb 1 z)
  | JNumber NNaN => Normal false
  | JNumber (NInf negative) => Normal (negb negative)
  | JString s => Normal (string_exceeds_one s)
  | JSymbol _ => Throw TypeError
  | JArray _ | JObject _ =>
      (s <- ToString h v ;; Normal (string_exceeds_one s))%completion
  end.

(** [genreNames.map((g) => `<span class="tag">${g}</span>`)] *)
Fixpoint tag_spans (h : Heap) (names : list JSValue)
  : completion (list string) :=
  match names with
  | [] => Normal []
  | g :: r =>
      (s <- ToString h g ;;
       ss <- tag_spans h r ;;
       Normal (tag_span s :: ss))%completion
  end.

Definition createPodcastCard (h : Heap) (podcast : JSValue)
    (onClick : JSValue -> World -> World) : completion HTMLDivElement :=
  (genres <- Get h podcast "genres" ;;
   genreNames <- GenreService_getNames genres ;;
   id <- Get h podcast "id" ;;
   id_s <- ToString h id ;;
   image <- Get h podcast "image" ;;
   image_s <- ToString h image ;;
   title <- Get h podcast "title" ;;
   title_s <- ToString h title ;;
   seasons <- Get h podcast "seasons" ;;
   seasons_s <- ToString h seasons ;;
   plural <- exceeds_one h seasons ;;
   spans <- tag_spans h genreNames ;;
   updated <- Get h podcast "updated" ;;
   formatted <- DateUtils_format updated ;;
   formatted_s <- ToString h formatted ;;
   Normal {| className := "card";
             dataset_id := id_s;
             innerHTML :=
               fragment image_s title_s seasons_s
                 (if plural : bool then "s" else "")
                 (String.concat "" spans) formatted_s;
             click_listeners := [fun w => onClick podcast w] |})%completion.

(** A click on the card: every listener runs, in the order they were
    added. *)
Definition click (card : HTMLDivElement) (w : World) : World :=
  fold_left (fun w' listener => listener w') (click_listeners card) w.

End Factory.

End CardFactory.

(** ** The callbacks of the attribute-only card of [src/podcastCard.js] *)

Module SimpleCardElement.

Definition with_attributes (a : gmap string string) (e : SimpleCard.Element)
  : SimpleCard.Element :=
  {| SimpleCard.attributes := a;
     SimpleCard.shadowRoot_innerHTML := SimpleCard.shadowRoot_innerHTML e |}.

(** [new PodcastCard()] with the attributes the parser gave it. *)
Definition constructor (attrs : gmap string string) : SimpleCard.Element :=
  {| SimpleCard.attributes := attrs; SimpleCard.shadowRoot_innerHTML := "" |}.

Definition connectedCallback (e : SimpleCard.Element) : SimpleCard.Element :=
  SimpleCard.render e.

Definition observedAttributes : list string :=
  ["title"; "image"; "description"].

Definition attributeChangedCallback (name : string)
    (oldValue newValue : option string) (e : SimpleCard.Element)
  : SimpleCard.Element :=
  if bool_decide (oldValue <> newValue) then SimpleCard.render e else e.

(** The platform side, as for the other card. *)
Definition setAttribute (name value : string) (e : SimpleCard.Element)
  : SimpleCard.Element :=
  let old := SimpleCard.attributes e !! name in
  let e' := with_attributes (<[name := value]> (SimpleCard.attributes e)) e in
  if bool_decide (name ∈ observedAttributes)
  then attributeChangedCallback name old (Some value) e'
  else e'.

End SimpleCardElement.

(** ** Vocabulary of the statements *)

Import JS.
Import PodcastCard.

(** The object [_attributesToObject] builds from the attributes [a]. *)
Definition attribute_value (a : gmap string string) (name : string) : JSValue :=
  match a !! name with
  | Some v => JString v
  | None => JNull
  end.

Definition attribute_record (a : gmap string string) : gmap string JSValue :=
  <["title" := attribute_value a "title"]>
    (<["image" := attribute_value a "image"]>
       (<["description" := attribute_value a "description"]>
          (<["genres" := attribute_value a "genres"]>
             (<["seasons" := attribute_value a "seasons"]>
                (<["updated" := attribute_value a "updated"]> ∅))))).

(** The reference the next object literal gets. *)
Definition next_loc (s : PodcastCard.State) : loc :=
  fresh (dom (PodcastCard.heap s)).

(** A field is missing from a record when reading it gives undefined
    (the property is absent) or null. *)
Definition missing (h : Heap) (data : JSValue) (name : string) : Prop :=
  exists v, Get h data name = Normal v /\ is_nullish v = true.

Definition is_array (v : JSValue) : bool :=
  match v with
  | JArray _ => true
  | _ => false
  end.

Definition is_string (v : JSValue) : bool :=
  match v with
  | JString _ => true
  | _ => false
  end.

(** A method leaves every object of the store as it was: it may only
    add objects of its own. *)
Definition preserves_records {A : Type} (m : PodcastCard.M A) : Prop :=
  forall s l o,
    PodcastCard.heap s !! l = Some o ->
    PodcastCard.heap (PodcastCard.exec m s) !! l = Some o.

(** [getAttribute(name) || fallback] on the attributes [a]. *)
Definition attribute_text (a : gmap string string) (name fallback : string)
  : string :=
  match a !! name with
  | Some v => if String.eqb v "" then fallback else v
  | None => fallback
  end.

(** The fragment of a card that has only attributes [a]; [localeDate]
    is the date handling of the platform. *)
Definition attribute_fragment (localeDate : JSValue -> string)
    (a : gmap string string) : string :=
  let genres := attribute_text a "genres" "" in
  let updated :=
    match a !! "updated" with
    | Some v => if String.eqb v "" then "" else localeDate (JString v)
    | None => ""
    end in
  PodcastCard.fragment
    (attribute_text a "image" "placeholder.jpg")
    (attribute_text a "title" "Untitled Podcast")
    (if String.eqb genres "" then "" else PodcastCard.genres_line genres)
    (attribute_text a "seasons" "—")
    (if String.eqb updated "" then "" else PodcastCard.updated_line updated).

(** The string conversion of [v], when it has one, is inert text. *)
Definition inert_value (h : Heap) (v : JSValue) : Prop :=
  forall t, ToString h v = Normal t -> Html.inert t = true.

(** Every text [render] interpolates for the record [data] is inert. *)
Definition inert_texts (localeDate : JSValue -> string) (h : Heap)
    (data : JSValue) : Prop :=
  (forall v, PodcastCard.image_of h data = Normal v -> inert_value h v) /\
  (forall v, PodcastCard.title_of h data = Normal v -> inert_value h v) /\
  (forall v, PodcastCard.genres_of h data = Normal v -> inert_value h v) /\
  (forall v, PodcastCard.seasons_of h data = Normal v -> inert_value h v) /\
  (forall u, PodcastCard.updated_of localeDate h data = Normal u ->
             Html.inert u = true).

(** The state [render] works in: the call is counted first. *)
Definition counted (s : State) : State :=
  with_render_calls (S (render_calls s)) s.

(** *** Concrete cards, for the examples *)

(** A browser whose locale prints every date the same way. *)
Definition sample_localeDate (v : JSValue) : string := "Jan 15, 2024".

(** The record of the specification's example. *)
Definition pod_a : gmap string JSValue :=
  <["title" := JString "Pod A"]>
    (<["seasons" := JNumber (NInt 2)]>
       (<["genres" := JArray [JString "Comedy"; JString "News"]]>
          (<["updated" := JString "2024-01-15"]> ∅))).

Definition pod_a_joined : gmap string JSValue :=
  <["genres" := JString "Comedy, News"]> pod_a.

(** An element whose property holds [pod_a] and that also has a title
    attribute. *)
Definition pod_a_card : State :=
  with_podcast (JObject 1%positive)
    (constructor {[ 1%positive := pod_a ]} {[ "title" := "From attribute" ]}).

(** A record whose genres are the number 5, and one whose genres are a
    symbol. *)
Definition numeric_genres : Heap :=
  {[ 1%positive := {[ "genres" := JNumber (NInt 5) ]} ]}.

Definition symbol_genres : Heap :=
  {[ 1%positive := {[ "genres" := JSymbol "tag" ]} ]}.

(** An attribute-only element with no attribute at all. *)
Definition bare_simple_card : SimpleCard.Element :=
  {| SimpleCard.attributes := ∅; SimpleCard.shadowRoot_innerHTML := "" |}.

(** A card whose title attribute carries an element with an error
    handler. *)
Definition hostile_card : State :=
  constructor ∅ {[ "title" := "<img src=x onerror=alert(1)>" ]}.

(** *** Sequences of operations on the card *)

(** What the page and the user can do to a card. *)
Inductive action : Type :=
| Connect
| SetAttribute (name value : string)
| SetPodcast (data : JSValue)
| Click.

Definition perform (localeDate : JSValue -> string) (a : action) : M unit :=
  match a with
  | Connect => connectedCallback localeDate
  | SetAttribute name value => setAttribute localeDate name value
  | SetPodcast data => set_podcast localeDate data
  | Click => on_click
  end.

(** The actions of a list one after the other; an action that throws
    leaves the state it reached and the next one goes on from there. *)
Definition perform_all (localeDate : JSValue -> string) (l : list action)
    (s : State) : State :=
  fold_left (fun s' a => exec (perform localeDate a) s') l s.

(** The shadow root shows the current data: rendering again would not
    change it. *)
Definition up_to_date (localeDate : JSValue -> string) (s : State) : Prop :=
  shadowRoot_innerHTML (exec (render localeDate) s) = shadowRoot_innerHTML s.

(** The attributes [render] reads when there is no property data. *)
Definition rendered_attributes : list string :=
  ["title"; "image"; "genres"; "seasons"; "updated"].

(** A value whose string conversion cannot throw: no symbol and no
    object that shadows toString, at any depth of an array. *)
Fixpoint printable (h : Heap) (v : JSValue) : bool :=
  match v with
  | JSymbol _ => false
  | JObject l => negb (own_toString h l)
  | JArray elems => forallb (printable h) elems
  | _ => true
  end.

(** The same state but for the store and the events: what a page sees
    of the element itself. *)
Definition same_element (s s' : State) : Prop :=
  _podcast s' = _podcast s /\
  attributes s' = attributes s /\
  shadowRoot_innerHTML s' = shadowRoot_innerHTML s /\
  render_calls s' = render_calls s.

(** How many of the actions are clicks. *)
Fixpoint click_count (l : list action) : nat :=
  match l with
  | [] => 0
  | Click :: r => S (click_count r)
  | _ :: r => click_count r
  end.

(** The notification of the card, whatever it carries. *)
Definition is_podcast_selected (ev : CustomEvent) : Prop :=
  type ev = "podcast-selected" /\ bubbles ev = true /\ composed ev = true.

(** [n] clicks in a row. *)
Definition clicks (n : nat) (s : State) : State :=
  Nat.iter n (exec on_click) s.

(** The attribute-only card shows its attributes. *)
Definition simple_up_to_date (e : SimpleCard.Element) : Prop :=
  SimpleCard.shadowRoot_innerHTML e =
  SimpleCard.fragment
    (SimpleCard.attribute_or e "image" "placeholder.jpg")
    (SimpleCard.attribute_or e "title" "Untitled Podcast")
    (SimpleCard.attribute_or e "description" "No description available").

(** A list of (name, value) pairs set on the attribute-only card, one
    after the other. *)
Definition simple_set_all (l : list (string * string))
    (e : SimpleCard.Element) : SimpleCard.Element :=
  fold_left (fun e' nv => SimpleCardElement.setAttribute (fst nv) (snd nv) e')
            l e.

(** [pod_a_card] after it was connected. *)
Definition connected_pod_a_card : State :=
  exec (connectedCallback sample_localeDate) pod_a_card.

(** An element whose store holds the record with symbol genres. *)
Definition symbol_card : State := constructor symbol_genres ∅.

(** A record with no seasons yet, and one whose genres are the empty
    sequence. *)
Definition zero_seasons : gmap string JSValue :=
  <["title" := JString "Pilot"]> (<["seasons" := JNumber (NInt 0)]> ∅).

Definition no_genres_yet : gmap string JSValue :=
  <["title" := JString "Pilot"]> (<["genres" := JArray []]> ∅).

(** Collaborators for the factory's examples, and a caller that counts
    the clicks it is told of. *)
Definition sample_getNames (genres : JSValue) : completion (list JSValue) :=
  Normal [JString "Comedy"; JString "News"].

Definition sample_format (updated : JSValue) : completion JSValue :=
  Normal (JString "Jan 15, 2024").

Definition sample_exceeds_one (s : string) : bool := false.

Definition count_click (podcast : JSValue) (n : nat) : nat := S n.

Definition title_only : gmap string JSValue :=
  {[ "title" := JString "Pod A" ]}.

Definition seasons_only : gmap string JSValue :=
  {[ "seasons" := JNumber (NInt 2) ]}.

(** The card the factory builds from [seasons_only]. *)
Definition seasons_only_card : CardFactory.HTMLDivElement nat :=
  match CardFactory.createPodcastCard sample_getNames sample_format
          sample_exceeds_one nat {[ 1%positive := seasons_only ]}
          (JObject 1%positive) count_click with
  | Normal card => card
  | Throw _ =>
      {| CardFactory.className := ""; CardFactory.dataset_id := "";
         CardFactory.innerHTML := ""; CardFactory.click_listeners := [] |}
  end.

(** ** String conversion and the store *)

Section NestedInduction.

Variable P : JSValue -> Prop.
Hypothesis P_undefined : P JUndefined.
Hypothesis P_null : P JNull.
Hypothesis P_bool : forall b, P (JBool b).
Hypothesis P_number : forall n, P (JNumber n).
Hypothesis P_string : forall s, P (JString s).
Hypothesis P_symbol : forall d, P (JSymbol d).
Hypothesis P_array : forall elems, Forall P elems -> P (JArray elems).
Hypothesis P_object : forall l, P (JObject l).

Fixpoint JSValue_nested_ind (v : JSValue) : P v :=
  match v with
  | JUndefined => P_undefined
  | JNull => P_null
  | JBool b => P_bool b
  | JNumber n => P_number n
  | JString s => P_string s
  | JSymbol d => P_symbol d
  | JArray elems =>
      P_array elems
        ((fix all (l : list JSValue) : Forall P l :=
            match l with
            | [] => @List.Forall_nil _ P
            | x :: r => @List.Forall_cons _ P x r (JSValue_nested_ind x) (all r)
            end) elems)
  | JObject l => P_object l
  end.

End NestedInduction.

Lemma ToString_array h elems :
  ToString h (JArray elems) = Array_join h "," elems.
Proof.
  unfold Array_join. simpl. f_equal.
  induction elems as [|x r IH]; simpl; [reflexivity|].
  rewrite IH. reflexivity.
Qed.

(** String conversion looks at the store only to see which objects
    shadow [toString]. *)
Lemma ToString_ext h h' v :
  (forall l, own_toString h l = own_toString h' l) ->
  ToString h v = ToString h' v.
Proof.
  intros Hown. induction v as [| |b|n|s|d|elems IH|l] using JSValue_nested_ind;
    try reflexivity.
  - rewrite !ToString_array. unfold Array_join. f_equal.
    induction IH as [|x r Hx _ IHr]; simpl; [reflexivity|].
    rewrite Hx, IHr. reflexivity.
  - simpl. rewrite Hown. reflexivity.
Qed.

Lemma Array_join_ext h h' sep elems :
  (forall l, own_toString h l = own_toString h' l) ->
  Array_join h sep elems = Array_join h' sep elems.
Proof.
  intros Hown. unfold Array_join. f_equal.
  induction elems as [|x r IH]; simpl; [reflexivity|].
  rewrite IH, (ToString_ext h h' x Hown). reflexivity.
Qed.

Lemma own_toString_insert_field h l o name v :
  h !! l = Some o -> name <> "toString" ->
  forall l', own_toString (<[l := <[name := v]> o]> h) l' = own_toString h l'.
Proof.
  intros Hl Hname l'. unfold own_toString.
  destruct (decide (l = l')) as [->|Hne].
  - rewrite lookup_insert_eq, Hl.
    rewrite lookup_insert_ne by assumption. reflexivity.
  - rewrite lookup_insert_ne by assumption. reflexivity.
Qed.

Lemma own_toString_attribute_record a :
  bool_decide (is_Some (attribute_record a !! "toString")) = false.
Proof. reflexivity. Qed.

Lemma own_toString_alloc_attributes h l a :
  h !! l = None ->
  forall l', own_toString (<[l := attribute_record a]> h) l' = own_toString h l'.
Proof.
  intros Hl l'. unfold own_toString.
  destruct (decide (l = l')) as [->|Hne].
  - rewrite lookup_insert_eq, Hl. apply own_toString_attribute_record.
  - rewrite lookup_insert_ne by assumption. reflexivity.
Qed.

(** ** The methods of the card, step by step *)

Section CardProperties.

Variable localeDate : JSValue -> string.

Abbreviation render := (PodcastCard.render localeDate).
Abbreviation render_markup := (PodcastCard.render_markup localeDate).
Abbreviation set_podcast := (PodcastCard.set_podcast localeDate).

Lemma attributesToObject_unfold s :
  _attributesToObject s =
  (with_heap (<[next_loc s := attribute_record (attributes s)]> (heap s)) s,
   Normal (JObject (next_loc s))).
Proof. reflexivity. Qed.

Lemma podcast_or_attributes_unfold s :
  podcast_or_attributes s =
  if ToBoolean (_podcast s) then (s, Normal (_podcast s))
  else (with_heap (<[next_loc s := attribute_record (attributes s)]> (heap s)) s,
        Normal (JObject (next_loc s))).
Proof.
  unfold podcast_or_attributes, bind, gets. simpl.
  destruct (ToBoolean (_podcast s)); [reflexivity|].
  apply attributesToObject_unfold.
Qed.

Lemma render_unfold s :
  render s =
  match podcast_or_attributes (counted s) with
  | (s', Normal data) =>
      match render_markup (heap s') data with
      | Normal html => (with_innerHTML html s', Normal tt)
      | Throw e => (s', Throw e)
      end
  | (s', Throw e) => (s', Throw e)
  end.
Proof.
  unfold PodcastCard.render, bind, modify, gets, lift. fold (counted s).
  destruct (podcast_or_attributes (counted s)) as [s' [data|e]]; [|reflexivity].
  simpl. destruct (render_markup (heap s') data); reflexivity.
Qed.

Lemma next_loc_fresh s : heap s !! next_loc s = None.
Proof. apply not_elem_of_dom. unfold next_loc. apply is_fresh. Qed.

(** *** What the attribute object renders to *)

Lemma Get_record h l o name :
  h !! l = Some o -> Get h (JObject l) name = Normal (default JUndefined (o !! name)).
Proof. intros H. simpl. rewrite H. reflexivity. Qed.

Lemma or_else_attribute a name fallback :
  or_else (attribute_value a name) (JString fallback) =
  JString (attribute_text a name fallback).
Proof.
  unfold or_else, attribute_value, attribute_text.
  destruct (a !! name) as [v|]; simpl; [|reflexivity].
  destruct (String.eqb v ""); reflexivity.
Qed.

Lemma render_markup_attribute_record h l a :
  h !! l = Some (attribute_record a) ->
  render_markup h (JObject l) = Normal (attribute_fragment localeDate a).
Proof.
  intros H.
  unfold PodcastCard.render_markup, title_of, image_of, genres_of, seasons_of,
    updated_of.
  rewrite !(Get_record h l _ _ H).
  replace (default JUndefined (attribute_record a !! "title"))
    with (attribute_value a "title") by reflexivity.
  replace (default JUndefined (attribute_record a !! "image"))
    with (attribute_value a "image") by reflexivity.
  replace (default JUndefined (attribute_record a !! "genres"))
    with (attribute_value a "genres") by reflexivity.
  replace (default JUndefined (attribute_record a !! "seasons"))
    with (attribute_value a "seasons") by reflexivity.
  replace (default JUndefined (attribute_record a !! "updated"))
    with (attribute_value a "updated") by reflexivity.
  cbn [cbind].
  assert (Hg : match attribute_value a "genres" with
               | JArray elems =>
                   cbind (Array_join h ", " elems) (fun s => Normal (JString s))
               | _ => Normal (or_else (attribute_value a "genres") (JString ""))
               end = Normal (JString (attribute_text a "genres" ""))).
  { rewrite <- or_else_attribute. unfold attribute_value.
    destruct (a !! "genres"); reflexivity. }
  rewrite Hg. cbn [cbind]. clear Hg. rewrite !or_else_attribute.
  unfold attribute_fragment, template, genres_meta, updated_meta, attribute_value.
  destruct (a !! "updated") as [u|]; cbn.
  - destruct (String.eqb u ""); cbn;
      destruct (String.eqb (attribute_text a "genres" "") ""); cbn;
      try reflexivity;
      destruct (String.eqb (localeDate (JString u)) ""); reflexivity.
  - destruct (String.eqb (attribute_text a "genres" "") ""); reflexivity.
Qed.

Lemma render_truthy s :
  ToBoolean (_podcast s) = true ->
  render s =
  match render_markup (heap s) (_podcast s) with
  | Normal html => (with_innerHTML html (counted s), Normal tt)
  | Throw e => (counted s, Throw e)
  end.
Proof.
  intros H. rewrite render_unfold, podcast_or_attributes_unfold.
  simpl. rewrite H. reflexivity.
Qed.

Lemma render_falsy s :
  ToBoolean (_podcast s) = false ->
  render s =
  (with_innerHTML (attribute_fragment localeDate (attributes s))
     (with_heap (<[next_loc s := attribute_record (attributes s)]> (heap s))
        (counted s)),
   Normal tt).
Proof.
  intros H. rewrite render_unfold, podcast_or_attributes_unfold.
  simpl. rewrite H.
  rewrite (render_markup_attribute_record _ _ (attributes s)).
  - reflexivity.
  - simpl. apply lookup_insert_eq.
Qed.

Lemma render_counts s : render_calls (exec render s) = S (render_calls s).
Proof.
  unfold exec. destruct (ToBoolean (_podcast s)) eqn:H.
  - rewrite (render_truthy s H).
    destruct (render_markup (heap s) (_podcast s)); reflexivity.
  - rewrite (render_falsy s H). reflexivity.
Qed.

Lemma render_keeps_element s :
  _podcast (exec render s) = _podcast s /\
  attributes (exec render s) = attributes s /\
  dispatched (exec render s) = dispatched s.
Proof.
  unfold exec. destruct (ToBoolean (_podcast s)) eqn:H.
  - rewrite (render_truthy s H).
    destruct (render_markup (heap s) (_podcast s)); repeat split; reflexivity.
  - rewrite (render_falsy s H). repeat split; reflexivity.
Qed.

Lemma alloc_preserves (h : Heap) l o l' (o' : gmap string JSValue) :
  h !! l = None -> h !! l' = Some o' -> <[l := o]> h !! l' = Some o'.
Proof.
  intros Hfresh Hl'. rewrite lookup_insert_ne; [assumption|].
  intros ->. rewrite Hfresh in Hl'. discriminate.
Qed.

Lemma render_preserves_records : preserves_records render.
Proof.
  intros s l o Hl. unfold exec. destruct (ToBoolean (_podcast s)) eqn:H.
  - rewrite (render_truthy s H).
    destruct (render_markup (heap s) (_podcast s)); exact Hl.
  - rewrite (render_falsy s H). simpl.
    apply alloc_preserves; [apply next_loc_fresh | exact Hl].
Qed.

Lemma on_click_unfold s :
  on_click s =
  match podcast_or_attributes s with
  | (s', Normal data) =>
      (with_dispatched
         (dispatched s' ++
          [{| type := "podcast-selected"; detail := {| podcast := data |};
              bubbles := true; composed := true |}]) s',
       Normal tt)
  | (s', Throw e) => (s', Throw e)
  end.
Proof.
  unfold on_click, bind, dispatchEvent, modify.
  destruct (podcast_or_attributes s) as [s' [data|e]]; reflexivity.
Qed.

(** ** The claims *)

(** C1. When the podcast property holds data (a truthy value, which
    every record object is), the expression [render] starts from yields
    that very value and builds no attribute object, and what [render]
    assigns to the shadow root is the markup of the property's record
    whatever the attributes are. *)
Theorem render_reads_property s :
  ToBoolean (_podcast s) = true ->
  podcast_or_attributes s = (s, Normal (_podcast s)) /\
  (forall html,
      render_markup (heap s) (_podcast s) = Normal html ->
      shadowRoot_innerHTML (exec render s) = html) /\
  (forall a,
      shadowRoot_innerHTML (exec render (with_attributes a s)) =
      shadowRoot_innerHTML (exec render s) /\
      outcome render (with_attributes a s) = outcome render s).
Proof.
  intros H. split; [|split].
  - rewrite podcast_or_attributes_unfold, H. reflexivity.
  - intros html Hm. unfold exec. rewrite (render_truthy s H), Hm. reflexivity.
  - intros a. unfold exec, outcome.
    rewrite (render_truthy s H), (render_truthy (with_attributes a s) H).
    simpl. destruct (render_markup (heap s) (_podcast s)); split; reflexivity.
Qed.

(** C4. [attributeChangedCallback] enters [render] exactly when the new
    value differs from the old one, and does nothing at all otherwise;
    so setting an observed attribute re-renders once when the value is
    new and not at all when the attribute already had that value. *)
Theorem attribute_change_rerenders_iff_differs name (oldValue newValue : option string) s :
  (render_calls (exec (attributeChangedCallback localeDate name oldValue newValue) s)
     = S (render_calls s) <-> oldValue <> newValue) /\
  (oldValue = newValue ->
     attributeChangedCallback localeDate name oldValue newValue s = (s, Normal tt)) /\
  (oldValue <> newValue ->
     attributeChangedCallback localeDate name oldValue newValue s = render s) /\
  (forall value, name ∈ observedAttributes ->
     render_calls (exec (setAttribute localeDate name value) s) =
     if bool_decide (attributes s !! name = Some value)
     then render_calls s else S (render_calls s)).
Proof.
  assert (Hsame : oldValue = newValue ->
     attributeChangedCallback localeDate name oldValue newValue s = (s, Normal tt)).
  { intros ->. unfold attributeChangedCallback.
    rewrite bool_decide_eq_false_2 by (intros Hne; apply Hne; reflexivity).
    reflexivity. }
  assert (Hdiff : oldValue <> newValue ->
     attributeChangedCallback localeDate name oldValue newValue s = render s).
  { intros Hne. unfold attributeChangedCallback.
    rewrite bool_decide_eq_true_2 by assumption. reflexivity. }
  split; [|split; [exact Hsame|split; [exact Hdiff|]]].
  - split.
    + intros Hcalls Heq. unfold exec in Hcalls.
      rewrite (Hsame Heq) in Hcalls. simpl in Hcalls. lia.
    + intros Hne. unfold exec. rewrite (Hdiff Hne). apply render_counts.
  - intros value Hobs. unfold exec, setAttribute, bind, gets, modify. simpl.
    rewrite bool_decide_eq_true_2 by assumption.
    unfold attributeChangedCallback.
    destruct (decide (attributes s !! name = Some value)) as [Heq|Hne].
    + rewrite (bool_decide_eq_true_2 _ Heq).
      rewrite bool_decide_eq_false_2 by (intros Hne; apply Hne; exact Heq).
      reflexivity.
    + rewrite (bool_decide_eq_false_2 _ Hne).
      rewrite bool_decide_eq_true_2 by assumption.
      apply (render_counts
               (with_attributes (<[name := value]> (attributes s)) s)).
Qed.

(** C5. Rendering twice in a row leaves the shadow root as the first
    rendering left it, and the second call completes as the first did. *)
Theorem render_idempotent s :
  shadowRoot_innerHTML (exec render (exec render s)) =
    shadowRoot_innerHTML (exec render s) /\
  outcome render (exec render s) = outcome render s.
Proof.
  unfold exec, outcome. destruct (ToBoolean (_podcast s)) eqn:H.
  - rewrite (render_truthy s H).
    destruct (render_markup (heap s) (_podcast s)) as [html|e] eqn:Hm; simpl.
    + rewrite (render_truthy (with_innerHTML html (counted s)) H). simpl.
      rewrite Hm. split; reflexivity.
    + rewrite (render_truthy (counted s) H). simpl.
      rewrite Hm. split; reflexivity.
  - rewrite (render_falsy s H). simpl.
    rewrite render_falsy by exact H. split; reflexivity.
Qed.

(** C6. A click completes normally and dispatches exactly one event: a
    podcast-selected event that bubbles and is composed, whose detail
    holds the property value when it is truthy and otherwise a new
    object made of the current attributes. *)
Theorem click_dispatches_one_event s :
  exists data,
    outcome on_click s = Normal tt /\
    dispatched (exec on_click s) =
      (dispatched s ++
       [{| type := "podcast-selected"; detail := {| podcast := data |};
           bubbles := true; composed := true |}])%list /\
    (ToBoolean (_podcast s) = true ->
       data = _podcast s /\ heap (exec on_click s) = heap s) /\
    (ToBoolean (_podcast s) = false ->
       data = JObject (next_loc s) /\
       heap s !! next_loc s = None /\
       heap (exec on_click s) !! next_loc s
         = Some (attribute_record (attributes s))).
Proof.
  unfold exec, outcome. rewrite on_click_unfold, podcast_or_attributes_unfold.
  destruct (ToBoolean (_podcast s)) eqn:H.
  - exists (_podcast s). simpl. repeat split; try reflexivity; discriminate.
  - exists (JObject (next_loc s)). simpl.
    split; [reflexivity|]. split; [reflexivity|].
    split; [discriminate|]. intros _.
    split; [reflexivity|]. split; [apply next_loc_fresh|].
    apply lookup_insert_eq.
Qed.

(** C8. Setting the property, rendering and dispatching the click
    notification leave every object of the store, the stored record
    among them, exactly as it was; only the setter changes which value
    the element holds, and it replaces it with the value given. *)
Theorem record_is_never_mutated :
  (forall data, preserves_records (set_podcast data)) /\
  preserves_records render /\
  preserves_records on_click /\
  (forall data s, _podcast (exec (set_podcast data) s) = data) /\
  (forall s, _podcast (exec render s) = _podcast s) /\
  (forall s, _podcast (exec on_click s) = _podcast s).
Proof.
  split; [|split; [|split; [|split; [|split]]]].
  - intros data s l o Hl.
    apply (render_preserves_records (with_podcast data s)). exact Hl.
  - apply render_preserves_records.
  - intros s l o Hl. unfold exec.
    rewrite on_click_unfold, podcast_or_attributes_unfold.
    destruct (ToBoolean (_podcast s)); simpl; [exact Hl|].
    apply alloc_preserves; [apply next_loc_fresh | exact Hl].
  - intros data s.
    apply (proj1 (render_keeps_element (with_podcast data s))).
  - intros s. apply (proj1 (render_keeps_element s)).
  - intros s. unfold exec.
    rewrite on_click_unfold, podcast_or_attributes_unfold.
    destruct (ToBoolean (_podcast s)); reflexivity.
Qed.

(** C10. After the property is set to a falsy value the getter returns
    that value, yet [render] shows the card of the attributes and a
    click carries a new object made of the attributes. *)
Theorem falsy_property_falls_back data s :
  ToBoolean data = false ->
  let s' := exec (set_podcast data) s in
  outcome get_podcast s' = Normal data /\
  outcome (set_podcast data) s = Normal tt /\
  shadowRoot_innerHTML s' = attribute_fragment localeDate (attributes s) /\
  heap s' !! next_loc s = Some (attribute_record (attributes s)) /\
  exists l,
    heap s' !! l = None /\
    heap (exec on_click s') !! l = Some (attribute_record (attributes s)) /\
    dispatched (exec on_click s') =
      (dispatched s ++
       [{| type := "podcast-selected"; detail := {| podcast := JObject l |};
           bubbles := true; composed := true |}])%list.
Proof.
  intros H s'.
  pose (s1 := with_innerHTML (attribute_fragment localeDate (attributes s))
                (with_heap
                   (<[next_loc s := attribute_record (attributes s)]> (heap s))
                   (counted (with_podcast data s)))).
  assert (Hexec : set_podcast data s = (s1, Normal tt)).
  { exact (render_falsy (with_podcast data s) H). }
  subst s'. unfold exec, outcome. rewrite Hexec. cbn [fst snd].
  split; [reflexivity|]. split; [reflexivity|]. split; [reflexivity|].
  split; [exact (lookup_insert_eq (heap s) (next_loc s) _)|].
  exists (next_loc s1).
  rewrite on_click_unfold, podcast_or_attributes_unfold.
  replace (ToBoolean (_podcast s1)) with false by (symmetry; exact H).
  cbn [fst]. split; [exact (next_loc_fresh s1)|]. split.
  - exact (lookup_insert_eq (heap s1) (next_loc s1) _).
  - reflexivity.
Qed.

(** *** Rendering depends on the store through the fields it reads *)

Lemma Date_ext h h' v :
  (forall l, own_toString h l = own_toString h' l) ->
  Date_toLocaleDateString localeDate h v = Date_toLocaleDateString localeDate h' v.
Proof.
  intros Hown. destruct v; try reflexivity; unfold Date_toLocaleDateString;
    rewrite (ToString_ext h h' _ Hown); reflexivity.
Qed.

Lemma template_ext h h' image title genres seasons updated :
  (forall l, own_toString h l = own_toString h' l) ->
  template h image title genres seasons updated =
  template h' image title genres seasons updated.
Proof.
  intros Hown. unfold template, genres_meta.
  rewrite !(ToString_ext h h' _ Hown). reflexivity.
Qed.

Lemma genres_of_ext h h' d d' :
  Get h d "genres" = Get h' d' "genres" ->
  (forall l, own_toString h l = own_toString h' l) ->
  genres_of h d = genres_of h' d'.
Proof.
  intros HG Hown. unfold genres_of. rewrite HG.
  destruct (Get h' d' "genres") as [g|e]; [|reflexivity]. simpl.
  destruct g; try reflexivity.
  rewrite (Array_join_ext h h' _ _ Hown). reflexivity.
Qed.

Lemma updated_of_ext h h' d d' :
  Get h d "updated" = Get h' d' "updated" ->
  (forall l, own_toString h l = own_toString h' l) ->
  updated_of localeDate h d = updated_of localeDate h' d'.
Proof.
  intros HG Hown. unfold updated_of. rewrite HG.
  destruct (Get h' d' "updated") as [u|e]; [|reflexivity]. simpl.
  rewrite (Date_ext h h' u Hown). reflexivity.
Qed.

Lemma render_markup_congr h h' d d' :
  title_of h d = title_of h' d' ->
  image_of h d = image_of h' d' ->
  genres_of h d = genres_of h' d' ->
  seasons_of h d = seasons_of h' d' ->
  updated_of localeDate h d = updated_of localeDate h' d' ->
  (forall l, own_toString h l = own_toString h' l) ->
  render_markup h d = render_markup h' d'.
Proof.
  intros Ht Hi Hg Hs Hu Hown. unfold PodcastCard.render_markup.
  rewrite Ht, Hi, Hg, Hs, Hu.
  destruct (title_of h' d') as [title|]; [|reflexivity].
  destruct (image_of h' d') as [image|]; [|reflexivity].
  destruct (genres_of h' d') as [genres|]; [|reflexivity].
  destruct (seasons_of h' d') as [seasons|]; [|reflexivity].
  destruct (updated_of localeDate h' d') as [updated|]; [|reflexivity].
  simpl. apply template_ext. exact Hown.
Qed.

Lemma Get_insert_other h l o name v other :
  name <> other ->
  Get (<[l := <[name := v]> o]> h) (JObject l) other =
  Normal (default JUndefined (o !! other)).
Proof.
  intros Hne. simpl. rewrite lookup_insert_eq.
  rewrite lookup_insert_ne by exact Hne. reflexivity.
Qed.

Lemma Get_insert_same h l o name v :
  Get (<[l := <[name := v]> o]> h) (JObject l) name = Normal v.
Proof. simpl. rewrite !lookup_insert_eq. reflexivity. Qed.

(** Changing one field of the record leaves the constants computed
    from the other fields as they were. *)
Lemma other_fields_unchanged h l o name v :
  h !! l = Some o -> name <> "toString" ->
  let h' := <[l := <[name := v]> o]> h in
  (name <> "title" -> title_of h' (JObject l) = title_of h (JObject l)) /\
  (name <> "image" -> image_of h' (JObject l) = image_of h (JObject l)) /\
  (name <> "genres" -> genres_of h' (JObject l) = genres_of h (JObject l)) /\
  (name <> "seasons" -> seasons_of h' (JObject l) = seasons_of h (JObject l)) /\
  (name <> "updated" ->
     updated_of localeDate h' (JObject l) = updated_of localeDate h (JObject l)).
Proof.
  intros Hl Hts h'.
  assert (Hown := own_toString_insert_field h l o name v Hl Hts).
  assert (HG : forall other, name <> other ->
             Get h' (JObject l) other = Get h (JObject l) other).
  { intros other Hne. unfold h'. rewrite Get_insert_other by exact Hne.
    rewrite (Get_record h l o other Hl). reflexivity. }
  repeat split; intros Hne.
  - unfold title_of. rewrite HG by exact Hne. reflexivity.
  - unfold image_of. rewrite HG by exact Hne. reflexivity.
  - apply genres_of_ext; [apply HG; exact Hne | exact Hown].
  - unfold seasons_of. rewrite HG by exact Hne. reflexivity.
  - apply updated_of_ext; [apply HG; exact Hne | exact Hown].
Qed.

Lemma or_else_nullish v d : is_nullish v = true -> or_else v d = d.
Proof. destruct v; try discriminate; reflexivity. Qed.

(** C2, as the code has it.  A missing title, image, season count or
    date gets its default: Untitled Podcast, placeholder.jpg, an em-dash
    and the empty string.  The description is different: the card with
    the podcast property never renders one (its fragment is the same
    whatever the description field holds), and the attribute-only card
    shows the text No description available for a missing one. *)
Theorem missing_fields_get_defaults h data :
  (missing h data "title" ->
     title_of h data = Normal (JString "Untitled Podcast")) /\
  (missing h data "image" ->
     image_of h data = Normal (JString "placeholder.jpg")) /\
  (missing h data "seasons" ->
     seasons_of h data = Normal (JString "—")) /\
  (missing h data "updated" ->
     updated_of localeDate h data = Normal "" /\ updated_meta "" = "") /\
  (forall l o v, h !! l = Some o ->
     render_markup (<[l := <["description" := v]> o]> h) (JObject l) =
     render_markup h (JObject l)) /\
  (forall e, SimpleCard.getAttribute e "description" = None ->
     SimpleCard.shadowRoot_innerHTML (SimpleCard.render e) =
     SimpleCard.fragment
       (SimpleCard.attribute_or e "image" "placeholder.jpg")
       (SimpleCard.attribute_or e "title" "Untitled Podcast")
       "No description available") /\
  (forall e,
     (SimpleCard.getAttribute e "title" = None ->
        SimpleCard.attribute_or e "title" "Untitled Podcast"
          = "Untitled Podcast") /\
     (SimpleCard.getAttribute e "image" = None ->
        SimpleCard.attribute_or e "image" "placeholder.jpg"
          = "placeholder.jpg")).
Proof.
  split; [|split; [|split; [|split; [|split; [|split]]]]].
  - intros (v & HG & Hv). unfold title_of. rewrite HG. simpl.
    rewrite or_else_nullish by exact Hv. reflexivity.
  - intros (v & HG & Hv). unfold image_of. rewrite HG. simpl.
    rewrite or_else_nullish by exact Hv. reflexivity.
  - intros (v & HG & Hv). unfold seasons_of. rewrite HG. simpl.
    rewrite or_else_nullish by exact Hv. reflexivity.
  - intros (v & HG & Hv). split; [|reflexivity].
    unfold updated_of. rewrite HG. simpl.
    destruct v; try discriminate; reflexivity.
  - intros l o v Hl.
    destruct (other_fields_unchanged h l o "description" v Hl)
      as (Ht & Hi & Hg & Hs & Hu); [discriminate|].
    apply render_markup_congr;
      [apply Ht | apply Hi | apply Hg | apply Hs | apply Hu | ];
      try discriminate.
    apply own_toString_insert_field; [exact Hl | discriminate].
  - intros e He. unfold SimpleCard.render. simpl.
    unfold SimpleCard.attribute_or at 3. rewrite He. reflexivity.
  - intros e. split; intros He; unfold SimpleCard.attribute_or;
      rewrite He; reflexivity.
Qed.

Lemma or_else_string s : or_else (JString s) (JString "") = JString s.
Proof.
  unfold or_else. simpl. destruct (String.eqb_spec s ""); [subst|]; reflexivity.
Qed.

Lemma genres_array_markup h l o elems joined :
  h !! l = Some o ->
  o !! "genres" = Some (JArray elems) ->
  Array_join h ", " elems = Normal joined ->
  render_markup (<[l := <["genres" := JString joined]> o]> h) (JObject l) =
  render_markup h (JObject l).
Proof.
  intros Hl Hg Hj.
  destruct (other_fields_unchanged h l o "genres" (JString joined) Hl)
    as (Ht & Hi & _ & Hs & Hu); [discriminate|].
  apply render_markup_congr;
    [apply Ht | apply Hi | | apply Hs | apply Hu | ]; try discriminate.
  - unfold genres_of. rewrite Get_insert_same, (Get_record h l o _ Hl), Hg.
    simpl. rewrite Hj. simpl. rewrite or_else_string. reflexivity.
  - apply own_toString_insert_field; [exact Hl | discriminate].
Qed.

(** C3. A record whose genres are a sequence renders exactly as the
    record that holds the sequence joined with a comma and a space. *)
Theorem genres_sequence_renders_as_joined_string s l o elems joined :
  _podcast s = JObject l ->
  heap s !! l = Some o ->
  o !! "genres" = Some (JArray elems) ->
  Array_join (heap s) ", " elems = Normal joined ->
  let s' := with_heap (<[l := <["genres" := JString joined]> o]> (heap s)) s in
  render_markup (heap s') (JObject l) = render_markup (heap s) (JObject l) /\
  shadowRoot_innerHTML (exec render s') = shadowRoot_innerHTML (exec render s) /\
  outcome render s' = outcome render s.
Proof.
  intros Hp Hl Hg Hj s'.
  assert (Hm := genres_array_markup (heap s) l o elems joined Hl Hg Hj).
  split; [exact Hm|].
  assert (Ht : ToBoolean (_podcast s) = true) by (rewrite Hp; reflexivity).
  unfold exec, outcome.
  rewrite (render_truthy s Ht), (render_truthy s' Ht). simpl.
  rewrite Hp, Hm.
  destruct (render_markup (heap s) (JObject l)); split; reflexivity.
Qed.

(** C7, as the code has it.  A genres value that is neither an array
    nor a string is replaced by the empty string only when it is falsy;
    a truthy one is kept and the template shows its string conversion.
    The replacement itself never throws, but the conversion does for a
    symbol. *)
Theorem genres_mismatch_kept_unless_falsy h data g :
  Get h data "genres" = Normal g ->
  is_array g = false ->
  is_string g = false ->
  genres_of h data = Normal (or_else g (JString "")) /\
  (ToBoolean g = false ->
     genres_of h data = Normal (JString "") /\
     genres_meta h (JString "") = Normal "") /\
  (ToBoolean g = true ->
     genres_of h data = Normal g /\
     genres_meta h g =
       (t <- ToString h g ;; Normal (genres_line t))%completion) /\
  (forall d image title seasons updated,
     g = JSymbol d ->
     template h image title g seasons updated = Throw TypeError).
Proof.
  intros HG Harr Hstr.
  assert (Hof : genres_of h data = Normal (or_else g (JString ""))).
  { unfold genres_of. rewrite HG. simpl. destruct g; try reflexivity.
    discriminate. }
  split; [exact Hof|]. split; [|split].
  - intros Hf. rewrite Hof. unfold or_else. rewrite Hf. split; reflexivity.
  - intros Ht. rewrite Hof. unfold or_else, genres_meta. rewrite Ht.
    split; reflexivity.
  - intros d image title seasons updated ->. unfold template.
    destruct (ToString h image) as [i|[]]; [|reflexivity].
    destruct (ToString h title) as [t|[]]; [|reflexivity].
    reflexivity.
Qed.

(** *** Scanning a template with inert substitutions *)

Lemma scan_app m a b :
  Html.scan m (a +:+ b) =
  ((Html.tokens_from m a ++ Html.tokens_from (Html.mode_after m a) b)%list,
   Html.mode_after (Html.mode_after m a) b).
Proof.
  unfold Html.tokens_from, Html.mode_after.
  revert m. induction a as [|c a IH]; intros m.
  - change (EmptyString +:+ b) with b. simpl.
    destruct (Html.scan m b); reflexivity.
  - change (String c a +:+ b) with (String c (a +:+ b)). simpl.
    destruct (Html.step m c) as [out m1]. rewrite IH.
    destruct (Html.scan m1 a) as [o1 m2]. simpl.
    destruct (Html.scan m2 b) as [o2 m3]. simpl.
    rewrite app_assoc. reflexivity.
Qed.

Lemma tokens_from_app m a b :
  Html.tokens_from m (a +:+ b) =
  (Html.tokens_from m a ++ Html.tokens_from (Html.mode_after m a) b)%list.
Proof. unfold Html.tokens_from at 1. rewrite scan_app. reflexivity. Qed.

Lemma mode_after_app m a b :
  Html.mode_after m (a +:+ b) = Html.mode_after (Html.mode_after m a) b.
Proof. unfold Html.mode_after at 1. rewrite scan_app. reflexivity. Qed.

(** Inert text between tags, or inside a quoted attribute value, yields
    no token and leaves the scanner where it was. *)
Lemma scan_inert m t :
  m = Html.Data \/ m = Html.ValueDouble ->
  Html.inert t = true ->
  Html.scan m t = ([], m).
Proof.
  intros Hm. induction t as [|c t IH]; intros Hi; [reflexivity|].
  unfold Html.inert in Hi. simpl in Hi.
  apply andb_true_iff in Hi as [Hc Ht].
  apply negb_true_iff, orb_false_iff in Hc as [Hlt Hq].
  simpl. destruct Hm as [-> | ->]; simpl.
  - rewrite Hlt. rewrite (IH Ht). reflexivity.
  - rewrite Hq. rewrite (IH Ht). reflexivity.
Qed.

Lemma tokens_from_inert m t :
  m = Html.Data \/ m = Html.ValueDouble ->
  Html.inert t = true -> Html.tokens_from m t = [].
Proof. intros Hm Hi. unfold Html.tokens_from. rewrite scan_inert; auto. Qed.

Lemma mode_after_inert m t :
  m = Html.Data \/ m = Html.ValueDouble ->
  Html.inert t = true -> Html.mode_after m t = m.
Proof. intros Hm Hi. unfold Html.mode_after. rewrite scan_inert; auto. Qed.

(** Walk a template from left to right: the state after each literal
    chunk is computed, a substitution is stepped over as inert text. *)
Ltac scan_modes :=
  repeat match goal with
    | |- context [Html.mode_after ?m ?s] =>
        lazymatch m with
        | context [Html.mode_after] => fail
        | _ =>
            first
              [ is_var s;
                rewrite (mode_after_inert m s) by (auto; fail)
              | let v := eval vm_compute in (Html.mode_after m s) in
                change (Html.mode_after m s) with v ]
        end
    end.

Ltac scan_tokens :=
  repeat match goal with
    | |- context [Html.tokens_from ?m ?s] =>
        first
          [ is_var s;
            rewrite (tokens_from_inert m s) by (auto; fail)
          | let v := eval vm_compute in (Html.tokens_from m s) in
            change (Html.tokens_from m s) with v ]
    end.

Lemma fragment_script_free image title genres_m seasons updated_m :
  Html.inert image = true ->
  Html.inert title = true ->
  Html.inert seasons = true ->
  genres_m = "" \/
    (exists g, genres_m = genres_line g /\ Html.inert g = true) ->
  updated_m = "" \/
    (exists u, updated_m = updated_line u /\ Html.inert u = true) ->
  Html.script_free (fragment image title genres_m seasons updated_m) = true.
Proof.
  intros Hi Ht Hs [-> | (g & -> & Hg)] [-> | (u & -> & Hu)];
    unfold Html.script_free, Html.tokens, fragment, genres_line, updated_line;
    rewrite !tokens_from_app, ?mode_after_app;
    scan_modes; scan_tokens; reflexivity.
Qed.

Lemma template_script_free h image title genres seasons updated html :
  template h image title genres seasons updated = Normal html ->
  inert_value h image -> inert_value h title ->
  inert_value h genres -> inert_value h seasons ->
  Html.inert updated = true ->
  Html.script_free html = true.
Proof.
  unfold template, genres_meta, updated_meta. intros Hm Hi Ht Hg Hs Hu.
  destruct (ToString h image) as [image_s|] eqn:Ei; [|discriminate].
  destruct (ToString h title) as [title_s|] eqn:Et; [|discriminate].
  simpl in Hm.
  assert (Hline : forall genres_m,
             (if ToBoolean genres
              then cbind (ToString h genres) (fun g => Normal (genres_line g))
              else Normal "") = Normal genres_m ->
             genres_m = "" \/
             (exists g, genres_m = genres_line g /\ Html.inert g = true)).
  { intros genres_m Hgm. destruct (ToBoolean genres).
    - destruct (ToString h genres) as [g|] eqn:Eg; [|discriminate].
      simpl in Hgm. injection Hgm as <-. right. exists g.
      split; [reflexivity | apply Hg; exact Eg].
    - injection Hgm as <-. left. reflexivity. }
  destruct (if ToBoolean genres
            then cbind (ToString h genres) (fun g => Normal (genres_line g))
            else Normal "") as [genres_m|] eqn:Egm; [|discriminate].
  simpl in Hm.
  destruct (ToString h seasons) as [seasons_s|] eqn:Es; [|discriminate].
  simpl in Hm. injection Hm as <-.
  apply fragment_script_free.
  - apply Hi; exact Ei.
  - apply Ht; exact Et.
  - apply Hs; exact Es.
  - apply Hline. reflexivity.
  - change (ToBoolean (JString updated)) with (negb (String.eqb updated "")).
    destruct (negb (String.eqb updated "")).
    + right. exists updated. split; [reflexivity | exact Hu].
    + left. reflexivity.
Qed.

(** C9, as the code has it.  The fragment is the fixed template with
    the field texts put in unescaped, so it is free of script elements
    and event handlers when those texts are inert: when none of them
    contains the character that opens a tag or a double quote. *)
Theorem rendered_fragment_script_free_when_inert h data html :
  render_markup h data = Normal html ->
  inert_texts localeDate h data ->
  Html.script_free html = true.
Proof.
  unfold PodcastCard.render_markup. intros Hm (Hi & Ht & Hg & Hs & Hu).
  destruct (title_of h data) as [title|]; [|discriminate].
  destruct (image_of h data) as [image|]; [|discriminate].
  destruct (genres_of h data) as [genres|]; [|discriminate].
  destruct (seasons_of h data) as [seasons|]; [|discriminate].
  destruct (updated_of localeDate h data) as [updated|]; [|discriminate].
  simpl in Hm.
  apply (template_script_free h image title genres seasons updated html Hm);
    auto.
Qed.

(** X1. A card without property data renders the fragment of its
    attributes and never throws. *)
Theorem attribute_card_renders_without_throwing s :
  ToBoolean (_podcast s) = false ->
  outcome render s = Normal tt /\
  shadowRoot_innerHTML (exec render s) =
    attribute_fragment localeDate (attributes s).
Proof.
  intros H. unfold outcome, exec. rewrite (render_falsy s H).
  split; reflexivity.
Qed.

(** X2. When [render] throws, the shadow root keeps what it showed. *)
Theorem failed_render_keeps_shadow_root s e :
  outcome render s = Throw e ->
  shadowRoot_innerHTML (exec render s) = shadowRoot_innerHTML s.
Proof.
  unfold outcome, exec. destruct (ToBoolean (_podcast s)) eqn:H.
  - rewrite (render_truthy s H).
    destruct (render_markup (heap s) (_podcast s)); [discriminate|].
    reflexivity.
  - rewrite (render_falsy s H). discriminate.
Qed.

End CardProperties.

(** ** Concrete cards *)

Example pod_a_rendering :
  shadowRoot_innerHTML (exec (render sample_localeDate) pod_a_card) =
  fragment "placeholder.jpg" "Pod A" (genres_line "Comedy, News") "2"
    (updated_line "Jan 15, 2024").
Proof. vm_compute. reflexivity. Qed.

Example pod_a_click :
  dispatched (exec on_click pod_a_card) =
  [{| type := "podcast-selected"; detail := {| podcast := JObject 1%positive |};
      bubbles := true; composed := true |}].
Proof. vm_compute. reflexivity. Qed.

Example empty_record_rendering :
  render_markup sample_localeDate {[ 1%positive := ∅ ]} (JObject 1%positive) =
  Normal (fragment "placeholder.jpg" "Untitled Podcast" "" "—" "").
Proof. vm_compute. reflexivity. Qed.

Example listed_values_are_falsy :
  ToBoolean JNull = false /\ ToBoolean JUndefined = false /\
  ToBoolean (JNumber (NInt 0)) = false /\ ToBoolean (JString "") = false.
Proof. repeat split; reflexivity. Qed.

Example symbol_genres_throws :
  render_markup sample_localeDate symbol_genres (JObject 1%positive) =
  Throw TypeError.
Proof. vm_compute. reflexivity. Qed.

(** *** Witnesses *)

Lemma render_reads_property_witness :
  podcast_or_attributes pod_a_card = (pod_a_card, Normal (JObject 1%positive)).
Proof.
  exact (proj1 (render_reads_property sample_localeDate pod_a_card eq_refl)).
Defined.

Lemma missing_fields_get_defaults_witness :
  title_of {[ 1%positive := (∅ : gmap string JSValue) ]} (JObject 1%positive) =
  Normal (JString "Untitled Podcast").
Proof.
  apply (proj1 (missing_fields_get_defaults sample_localeDate
                  {[ 1%positive := ∅ ]} (JObject 1%positive))).
  exists JUndefined. split; reflexivity.
Defined.

Lemma genres_sequence_witness :
  shadowRoot_innerHTML
    (exec (render sample_localeDate)
       (with_heap (<[1%positive := pod_a_joined]> (heap pod_a_card)) pod_a_card)) =
  shadowRoot_innerHTML (exec (render sample_localeDate) pod_a_card).
Proof.
  refine (proj1 (proj2 (genres_sequence_renders_as_joined_string
                          sample_localeDate pod_a_card 1%positive pod_a
                          [JString "Comedy"; JString "News"] "Comedy, News"
                          _ _ _ _))); vm_compute; reflexivity.
Defined.

Lemma attribute_change_witness :
  render_calls
    (exec (setAttribute sample_localeDate "title" "From attribute") pod_a_card) = 0 /\
  render_calls
    (exec (setAttribute sample_localeDate "title" "Another") pod_a_card) = 1.
Proof.
  split.
  - refine (eq_trans
              (proj2 (proj2 (proj2 (attribute_change_rerenders_iff_differs
                                      sample_localeDate "title" None None
                                      pod_a_card)))
                 "From attribute" _) _).
    + vm_compute. repeat constructor.
    + vm_compute. reflexivity.
  - refine (eq_trans
              (proj2 (proj2 (proj2 (attribute_change_rerenders_iff_differs
                                      sample_localeDate "title" None None
                                      pod_a_card)))
                 "Another" _) _).
    + vm_compute. repeat constructor.
    + vm_compute. reflexivity.
Defined.

Lemma genres_mismatch_witness :
  genres_of numeric_genres (JObject 1%positive) =
  Normal (or_else (JNumber (NInt 5)) (JString "")).
Proof.
  refine (proj1 (genres_mismatch_kept_unless_falsy numeric_genres
                   (JObject 1%positive) (JNumber (NInt 5)) _ _ _));
    vm_compute; reflexivity.
Defined.

Lemma rendered_fragment_script_free_witness :
  Html.script_free
    (fragment "placeholder.jpg" "Pod A" (genres_line "Comedy, News") "2"
       (updated_line "Jan 15, 2024")) = true.
Proof.
  apply (rendered_fragment_script_free_when_inert sample_localeDate
           {[ 1%positive := pod_a ]} (JObject 1%positive)).
  - vm_compute. reflexivity.
  - repeat split; intros v Hv; vm_compute in Hv; injection Hv as <-;
      try (intros t Ht; vm_compute in Ht; injection Ht as <-);
      vm_compute; reflexivity.
Defined.

Lemma falsy_property_witness :
  outcome get_podcast
    (exec (set_podcast sample_localeDate (JNumber (NInt 0))) pod_a_card)
  = Normal (JNumber (NInt 0)) /\
  shadowRoot_innerHTML
    (exec (set_podcast sample_localeDate (JNumber (NInt 0))) pod_a_card)
  = fragment "placeholder.jpg" "From attribute" "" "—" "".
Proof.
  destruct (falsy_property_falls_back sample_localeDate (JNumber (NInt 0))
              pod_a_card eq_refl) as (Hget & _ & Hhtml & _).
  split; [exact Hget|].
  rewrite Hhtml. vm_compute. reflexivity.
Defined.

Lemma attribute_card_witness :
  outcome (render sample_localeDate) hostile_card = Normal tt.
Proof.
  exact (proj1 (attribute_card_renders_without_throwing sample_localeDate
                  hostile_card eq_refl)).
Defined.

Lemma failed_render_witness :
  shadowRoot_innerHTML
    (exec (render sample_localeDate)
       (with_podcast (JObject 1%positive) (constructor symbol_genres ∅))) = "".
Proof.
  refine (failed_render_keeps_shadow_root sample_localeDate
            (with_podcast (JObject 1%positive) (constructor symbol_genres ∅))
            TypeError _).
  vm_compute. reflexivity.
Defined.

(** *** Counterexamples to the claims as the specification words them *)

(** C2: the two cards have no common default for a missing
    description.  With no description attribute the attribute-only card
    shows a text, not an empty description; the card with the podcast
    property shows no description at all, that text included. *)
Lemma simple_card_description_is_not_empty :
  SimpleCard.getAttribute bare_simple_card "description" = None /\
  SimpleCard.shadowRoot_innerHTML (SimpleCard.render bare_simple_card) =
    SimpleCard.fragment "placeholder.jpg" "Untitled Podcast"
      "No description available" /\
  String.eqb
    (SimpleCard.shadowRoot_innerHTML (SimpleCard.render bare_simple_card))
    (SimpleCard.fragment "placeholder.jpg" "Untitled Podcast" "") = false /\
  render_markup sample_localeDate {[ 1%positive := ∅ ]} (JObject 1%positive) =
    Normal (fragment "placeholder.jpg" "Untitled Podcast" "" "—" "") /\
  String.index 0 "No description available"
    (fragment "placeholder.jpg" "Untitled Podcast" "" "—" "") = None.
Proof. vm_compute. repeat split; reflexivity. Qed.

(** C7: the number 5 is neither an array nor a string, and it is not
    replaced by the empty string: the card shows it. *)
Lemma numeric_genres_are_not_normalized :
  is_array (JNumber (NInt 5)) = false /\
  is_string (JNumber (NInt 5)) = false /\
  Get numeric_genres (JObject 1%positive) "genres" = Normal (JNumber (NInt 5)) /\
  genres_of numeric_genres (JObject 1%positive) = Normal (JNumber (NInt 5)) /\
  render_markup sample_localeDate numeric_genres (JObject 1%positive) =
    Normal (fragment "placeholder.jpg" "Untitled Podcast" (genres_line "5")
              "—" "").
Proof. vm_compute. repeat split; reflexivity. Qed.

(** C9: a title that is an element with an error handler reaches the
    fragment as markup. *)
Lemma unescaped_title_carries_script :
  outcome (render sample_localeDate) hostile_card = Normal tt /\
  Html.script_free
    (shadowRoot_innerHTML (exec (render sample_localeDate) hostile_card))
  = false /\
  existsb (fun t => match t with
                    | Html.Attribute n => String.eqb n "onerror"
                    | _ => false
                    end)
    (Html.tokens
       (shadowRoot_innerHTML (exec (render sample_localeDate) hostile_card)))
  = true.
Proof. vm_compute. repeat split; reflexivity. Qed.

(** ** Further properties of the card *)

Section CardSequences.

Variable localeDate : JSValue -> string.

Abbreviation render := (PodcastCard.render localeDate).
Abbreviation render_markup := (PodcastCard.render_markup localeDate).
Abbreviation set_podcast := (PodcastCard.set_podcast localeDate).
Abbreviation setAttribute := (PodcastCard.setAttribute localeDate).

Lemma render_shadow_root s :
  shadowRoot_innerHTML (exec render s) =
  if ToBoolean (_podcast s)
  then match render_markup (heap s) (_podcast s) with
       | Normal html => html
       | Throw _ => shadowRoot_innerHTML s
       end
  else attribute_fragment localeDate (attributes s).
Proof.
  unfold exec. destruct (ToBoolean (_podcast s)) eqn:H.
  - rewrite (render_truthy localeDate s H).
    destruct (render_markup (heap s) (_podcast s)); reflexivity.
  - rewrite (render_falsy localeDate s H). reflexivity.
Qed.

Lemma render_keeps_store_when_truthy s :
  ToBoolean (_podcast s) = true -> heap (exec render s) = heap s.
Proof.
  intros H. unfold exec. rewrite (render_truthy localeDate s H).
  destruct (render_markup (heap s) (_podcast s)); reflexivity.
Qed.

Lemma up_to_date_after_render s : up_to_date localeDate (exec render s).
Proof.
  unfold up_to_date. rewrite (render_shadow_root (exec render s)).
  destruct (render_keeps_element localeDate s) as (Hp & Ha & _).
  rewrite Hp, Ha. destruct (ToBoolean (_podcast s)) eqn:H.
  - rewrite (render_keeps_store_when_truthy s H).
    rewrite (render_shadow_root s), H.
    destruct (render_markup (heap s) (_podcast s)); reflexivity.
  - rewrite (render_shadow_root s), H. reflexivity.
Qed.

(** The fragment of the attributes looks at five of them only. *)
Lemma attribute_fragment_ext a a' :
  (forall name, name ∈ rendered_attributes -> a' !! name = a !! name) ->
  attribute_fragment localeDate a' = attribute_fragment localeDate a.
Proof.
  intros Hsame. unfold attribute_fragment, attribute_text.
  rewrite !Hsame by (apply list_elem_of_In; simpl; tauto).
  reflexivity.
Qed.

Lemma render_shadow_root_congr s s' :
  _podcast s' = _podcast s ->
  shadowRoot_innerHTML s' = shadowRoot_innerHTML s ->
  (ToBoolean (_podcast s) = true -> heap s' = heap s) ->
  (ToBoolean (_podcast s) = false ->
   forall name, name ∈ rendered_attributes ->
                attributes s' !! name = attributes s !! name) ->
  shadowRoot_innerHTML (exec render s') = shadowRoot_innerHTML (exec render s).
Proof.
  intros Hp Hh Hheap Hattr. rewrite !render_shadow_root, Hp.
  destruct (ToBoolean (_podcast s)) eqn:H.
  - rewrite (Hheap eq_refl), Hh. reflexivity.
  - apply attribute_fragment_ext. apply Hattr. reflexivity.
Qed.

Lemma on_click_state s :
  exec on_click s =
  if ToBoolean (_podcast s)
  then with_dispatched
         (dispatched s ++
          [{| type := "podcast-selected";
              detail := {| podcast := _podcast s |};
              bubbles := true; composed := true |}]) s
  else with_dispatched
         (dispatched s ++
          [{| type := "podcast-selected";
              detail := {| podcast := JObject (next_loc s) |};
              bubbles := true; composed := true |}])
         (with_heap (<[next_loc s := attribute_record (attributes s)]> (heap s))
            s).
Proof.
  unfold exec. rewrite on_click_unfold, podcast_or_attributes_unfold.
  destruct (ToBoolean (_podcast s)); reflexivity.
Qed.

Lemma setAttribute_state name value s :
  exec (setAttribute name value) s =
  let s' := with_attributes (<[name := value]> (attributes s)) s in
  if bool_decide (name ∈ observedAttributes)
  then if bool_decide (attributes s !! name <> Some value)
       then exec render s' else s'
  else s'.
Proof.
  unfold exec, PodcastCard.setAttribute, bind, gets, modify. simpl.
  destruct (bool_decide (name ∈ observedAttributes)); [|reflexivity].
  unfold attributeChangedCallback.
  destruct (bool_decide (attributes s !! name <> Some value)); reflexivity.
Qed.

Lemma rendered_are_observed name :
  name ∈ rendered_attributes -> name ∈ observedAttributes.
Proof. rewrite !list_elem_of_In. simpl. tauto. Qed.

Lemma up_to_date_step a s :
  up_to_date localeDate s -> up_to_date localeDate (exec (perform localeDate a) s).
Proof.
  intros Hs. destruct a as [|name value|data|]; simpl.
  - apply up_to_date_after_render.
  - rewrite setAttribute_state. cbv zeta.
    set (s' := with_attributes (<[name := value]> (attributes s)) s).
    assert (Hkeep : (forall n, n ∈ rendered_attributes ->
                               attributes s' !! n = attributes s !! n) ->
                    up_to_date localeDate s').
    { intros Hattr. unfold up_to_date.
      rewrite (render_shadow_root_congr s s'); try reflexivity; auto. }
    destruct (bool_decide (name ∈ observedAttributes)) eqn:Hobs.
    + destruct (bool_decide (attributes s !! name <> Some value)) eqn:Hne.
      * apply up_to_date_after_render.
      * apply bool_decide_eq_false in Hne. apply dec_stable in Hne.
        apply Hkeep. intros n _. simpl.
        rewrite insert_id by exact Hne. reflexivity.
    + apply bool_decide_eq_false in Hobs.
      apply Hkeep. intros n Hn. simpl.
      apply lookup_insert_ne. intros ->.
      apply Hobs, rendered_are_observed, Hn.
  - apply (up_to_date_after_render (with_podcast data s)).
  - unfold up_to_date. rewrite on_click_state.
    destruct (ToBoolean (_podcast s)) eqn:H.
    + rewrite (render_shadow_root_congr s); try reflexivity; auto.
    + rewrite (render_shadow_root_congr s); try reflexivity; auto.
      intros Ht. rewrite H in Ht. discriminate.
Qed.

Lemma perform_all_app l l' s :
  perform_all localeDate (l ++ l') s =
  perform_all localeDate l' (perform_all localeDate l s).
Proof. unfold perform_all. apply fold_left_app. Qed.

Lemma up_to_date_steps l s :
  up_to_date localeDate s -> up_to_date localeDate (perform_all localeDate l s).
Proof.
  revert s. induction l as [|a l IH]; intros s Hs; [exact Hs|].
  simpl. apply IH, up_to_date_step, Hs.
Qed.

(** X3. Once the card was connected, whatever the page does next
    (attributes set, the property set, clicks, further connections), the
    shadow root shows the current data: rendering again would change
    nothing; without property data it is the fragment of the current
    attributes, and with property data it is the markup of the record
    whenever that markup can be built. *)
Theorem connected_card_stays_up_to_date s l :
  let s' := perform_all localeDate (Connect :: l) s in
  up_to_date localeDate s' /\
  (ToBoolean (_podcast s') = false ->
     shadowRoot_innerHTML s' = attribute_fragment localeDate (attributes s')) /\
  (forall html,
     ToBoolean (_podcast s') = true ->
     render_markup (heap s') (_podcast s') = Normal html ->
     shadowRoot_innerHTML s' = html).
Proof.
  intros s'.
  assert (Hup : up_to_date localeDate s').
  { subst s'. simpl. apply up_to_date_steps, up_to_date_after_render. }
  split; [exact Hup|]. unfold up_to_date in Hup.
  rewrite render_shadow_root in Hup. split.
  - intros H. rewrite H in Hup. symmetry. exact Hup.
  - intros html H Hm. rewrite H, Hm in Hup. symmetry. exact Hup.
Qed.

Lemma setAttribute_shadow_root s name value :
  up_to_date localeDate s ->
  ToBoolean (_podcast s) = true \/ name ∉ rendered_attributes ->
  shadowRoot_innerHTML (exec (setAttribute name value) s) =
  shadowRoot_innerHTML s.
Proof.
  intros Hup Hcase. rewrite setAttribute_state. cbv zeta.
  set (s' := with_attributes (<[name := value]> (attributes s)) s).
  assert (Hr : shadowRoot_innerHTML (exec render s') = shadowRoot_innerHTML s).
  { rewrite <- Hup. apply render_shadow_root_congr; try reflexivity.
    intros Hf n Hn. simpl. apply lookup_insert_ne. intros ->.
    destruct Hcase as [Ht | Hout]; [rewrite Hf in Ht; discriminate|].
    apply Hout, Hn. }
  destruct (bool_decide (name ∈ observedAttributes)); [|reflexivity].
  destruct (bool_decide (attributes s !! name <> Some value));
    [exact Hr | reflexivity].
Qed.

Lemma setAttribute_stores name value s :
  attributes (exec (setAttribute name value) s) =
  <[name := value]> (attributes s).
Proof.
  rewrite setAttribute_state. cbv zeta.
  destruct (bool_decide (name ∈ observedAttributes)); [|reflexivity].
  destruct (bool_decide (attributes s !! name <> Some value)); [|reflexivity].
  exact (proj1 (proj2 (render_keeps_element localeDate
           (with_attributes (<[name := value]> (attributes s)) s)))).
Qed.

(** X4. While the property holds data, an attribute change is stored
    but never shows: on a card that is up to date the shadow root stays
    as it is, whatever attribute is set to whatever value. *)
Theorem property_data_hides_attribute_changes s name value :
  up_to_date localeDate s ->
  ToBoolean (_podcast s) = true ->
  shadowRoot_innerHTML (exec (setAttribute name value) s) =
    shadowRoot_innerHTML s /\
  attributes (exec (setAttribute name value) s) !! name = Some value.
Proof.
  intros Hup Ht. split.
  - apply setAttribute_shadow_root; [exact Hup | left; exact Ht].
  - rewrite setAttribute_stores. apply lookup_insert_eq.
Qed.

(** X5. The description attribute is observed but never rendered:
    giving it a new value runs [render] once more, and the shadow root
    of a card that is up to date comes out unchanged. *)
Theorem description_change_rerenders_for_nothing s value :
  up_to_date localeDate s ->
  attributes s !! "description" <> Some value ->
  render_calls (exec (setAttribute "description" value) s) =
    S (render_calls s) /\
  shadowRoot_innerHTML (exec (setAttribute "description" value) s) =
    shadowRoot_innerHTML s.
Proof.
  intros Hup Hne. split.
  - rewrite setAttribute_state. cbv zeta.
    rewrite bool_decide_eq_true_2
      by (apply list_elem_of_In; simpl; tauto).
    rewrite bool_decide_eq_true_2 by exact Hne.
    exact (render_counts localeDate
             (with_attributes (<["description" := value]> (attributes s)) s)).
  - apply setAttribute_shadow_root; [exact Hup | right].
    rewrite list_elem_of_In. simpl. intros H.
    repeat (destruct H as [H|H]; [discriminate|]). exact H.
Qed.

(** *** Events *)

Lemma perform_dispatched a s :
  dispatched (exec (perform localeDate a) s) =
  match a with
  | Click =>
      (dispatched s ++
       [{| type := "podcast-selected";
           detail := {| podcast :=
                          if ToBoolean (_podcast s) then _podcast s
                          else JObject (next_loc s) |};
           bubbles := true; composed := true |}])%list
  | _ => dispatched s
  end.
Proof.
  destruct a as [|name value|data|]; simpl.
  - apply (proj2 (proj2 (render_keeps_element localeDate s))).
  - rewrite setAttribute_state. cbv zeta.
    destruct (bool_decide (name ∈ observedAttributes)); [|reflexivity].
    destruct (bool_decide (attributes s !! name <> Some value));
      [|reflexivity].
    exact (proj2 (proj2 (render_keeps_element localeDate
             (with_attributes (<[name := value]> (attributes s)) s)))).
  - apply (proj2 (proj2 (render_keeps_element localeDate (with_podcast data s)))).
  - rewrite on_click_state. destruct (ToBoolean (_podcast s)); reflexivity.
Qed.

(** X6. Events come from clicks alone, one for each: over any sequence
    of operations the events dispatched before are kept in order, and
    exactly as many podcast-selected events are added as the sequence
    has clicks, each bubbling and composed. *)
Theorem one_event_per_click l s :
  exists evs,
    dispatched (perform_all localeDate l s) = (dispatched s ++ evs)%list /\
    length evs = click_count l /\
    Forall is_podcast_selected evs.
Proof.
  revert s. induction l as [|a l IH]; intros s.
  - exists []. split; [symmetry; apply app_nil_r|]. split; constructor.
  - simpl perform_all.
    change (fold_left (fun s' a0 => exec (perform localeDate a0) s') l
              (exec (perform localeDate a) s))
      with (perform_all localeDate l (exec (perform localeDate a) s)).
    destruct (IH (exec (perform localeDate a) s)) as (evs & Hd & Hlen & Hall).
    rewrite perform_dispatched in Hd.
    destruct a as [|name value|data|];
      try (exists evs; split; [exact Hd|]; split; assumption).
    eexists (_ :: evs). split; [|split].
    + rewrite Hd, <- app_assoc. reflexivity.
    + simpl. rewrite Hlen. reflexivity.
    + constructor; [|exact Hall]. repeat split.
Qed.

Lemma on_click_same_element s : same_element s (exec on_click s).
Proof.
  rewrite on_click_state.
  destruct (ToBoolean (_podcast s)); repeat split.
Qed.

Lemma on_click_preserves_records : preserves_records on_click.
Proof.
  intros s l o Hl. rewrite on_click_state.
  destruct (ToBoolean (_podcast s)); simpl; [exact Hl|].
  apply alloc_preserves; [apply next_loc_fresh | exact Hl].
Qed.

(** X7. Clicking does nothing but dispatch: after any number of clicks
    the property, the attributes, the shadow root and the number of
    renderings are what they were, and every object of the store is
    unchanged. *)
Theorem clicks_only_dispatch n s :
  same_element s (clicks n s) /\
  (forall l o, heap s !! l = Some o -> heap (clicks n s) !! l = Some o).
Proof.
  induction n as [|n [(Hp & Ha & Hh & Hc) Hstore]].
  - split; [repeat split | auto].
  - simpl. destruct (on_click_same_element (clicks n s))
      as (Hp' & Ha' & Hh' & Hc').
    split.
    + unfold same_element.
      rewrite Hp', Ha', Hh', Hc', Hp, Ha, Hh, Hc. repeat split.
    + intros l o Hl. apply on_click_preserves_records, Hstore, Hl.
Qed.

(** X8. The setter stores before it renders: when [set podcast] throws
    (only a truthy value can make it), the property already holds the
    new value, which the getter returns, while the shadow root still
    shows what it showed. *)
Theorem failed_set_keeps_value_and_old_markup data s e :
  outcome (set_podcast data) s = Throw e ->
  ToBoolean data = true /\
  outcome get_podcast (exec (set_podcast data) s) = Normal data /\
  shadowRoot_innerHTML (exec (set_podcast data) s) = shadowRoot_innerHTML s.
Proof.
  unfold outcome, exec.
  change (PodcastCard.set_podcast localeDate data s)
    with (render (with_podcast data s)).
  destruct (ToBoolean data) eqn:H.
  - rewrite (render_truthy localeDate (with_podcast data s) H). simpl.
    destruct (render_markup (heap s) data); [discriminate|].
    intros _. repeat split.
  - rewrite (render_falsy localeDate (with_podcast data s) H). discriminate.
Qed.

(** X9. [_attributesToObject] builds a new object each time: its
    reference was not in use, it has the six observed names as fields,
    each holding the attribute's string or null (never undefined), no
    other attribute of the element is copied, and the next call gets
    another reference. *)
Theorem attributes_object_mirrors_observed s :
  let l := next_loc s in
  let s' := exec _attributesToObject s in
  outcome _attributesToObject s = Normal (JObject l) /\
  heap s !! l = None /\
  (forall name,
     Get (heap s') (JObject l) name =
     Normal (if bool_decide (name ∈ observedAttributes)
             then attribute_value (attributes s) name
             else JUndefined)) /\
  next_loc s' <> l.
Proof.
  intros l s'. subst l s'. unfold outcome, exec.
  rewrite attributesToObject_unfold. simpl.
  split; [reflexivity|]. split; [apply next_loc_fresh|]. split.
  - intros name. rewrite lookup_insert_eq.
    destruct (bool_decide_reflect (name ∈ observedAttributes)) as [Hin|Hout].
    + apply list_elem_of_In in Hin. simpl in Hin.
      repeat (destruct Hin as [<-|Hin]; [reflexivity|]). destruct Hin.
    + unfold attribute_record.
      rewrite !lookup_insert_ne, lookup_empty; [reflexivity|..];
        intros <-; apply Hout, list_elem_of_In; simpl; tauto.
  - intros Heq.
    pose proof (next_loc_fresh
                  (with_heap (<[next_loc s := attribute_record (attributes s)]>
                                (heap s)) s)) as Hfresh.
    rewrite Heq in Hfresh. simpl in Hfresh.
    rewrite lookup_insert_eq in Hfresh. discriminate.
Qed.

(** *** Fields that count as missing *)

Lemma record_change_keeps_other_fields h l o o' changed :
  h !! l = Some o ->
  (forall other, other <> changed -> o' !! other = o !! other) ->
  changed <> "toString" ->
  let h' := <[l := o']> h in
  (forall x, own_toString h' x = own_toString h x) /\
  (changed <> "title" -> title_of h' (JObject l) = title_of h (JObject l)) /\
  (changed <> "image" -> image_of h' (JObject l) = image_of h (JObject l)) /\
  (changed <> "genres" -> genres_of h' (JObject l) = genres_of h (JObject l)) /\
  (changed <> "seasons" ->
     seasons_of h' (JObject l) = seasons_of h (JObject l)) /\
  (changed <> "updated" ->
     updated_of localeDate h' (JObject l) = updated_of localeDate h (JObject l)).
Proof.
  intros Hl Hsame Hts h'.
  assert (Hown : forall x, own_toString h' x = own_toString h x).
  { intros x. unfold own_toString, h'.
    destruct (decide (l = x)) as [<-|Hne].
    - rewrite lookup_insert_eq, Hl, Hsame; [reflexivity|].
      intros Heq. apply Hts. symmetry. exact Heq.
    - rewrite lookup_insert_ne by exact Hne. reflexivity. }
  assert (HG : forall other, changed <> other ->
             Get h' (JObject l) other = Get h (JObject l) other).
  { intros other Hne. unfold h'. simpl.
    rewrite lookup_insert_eq, Hl, Hsame; [reflexivity|].
    intros Heq. apply Hne. symmetry. exact Heq. }
  split; [exact Hown|]. repeat split; intros Hne.
  - unfold title_of. rewrite HG by exact Hne. reflexivity.
  - unfold image_of. rewrite HG by exact Hne. reflexivity.
  - apply genres_of_ext; [apply HG; exact Hne | exact Hown].
  - unfold seasons_of. rewrite HG by exact Hne. reflexivity.
  - apply updated_of_ext; [apply HG; exact Hne | exact Hown].
Qed.

Lemma Get_deleted h l o name :
  Get (<[l := delete name o]> h) (JObject l) name = Normal JUndefined.
Proof. simpl. rewrite lookup_insert_eq, lookup_delete_eq. reflexivity. Qed.

Lemma or_else_falsy v d : ToBoolean v = false -> or_else v d = d.
Proof. intros H. unfold or_else. rewrite H. reflexivity. Qed.

Lemma deleted_field_markup h l o name :
  h !! l = Some o ->
  name ∈ rendered_attributes ->
  (name = "title" -> title_of h (JObject l) = Normal (JString "Untitled Podcast")) ->
  (name = "image" -> image_of h (JObject l) = Normal (JString "placeholder.jpg")) ->
  (name = "genres" -> genres_of h (JObject l) = Normal (JString "")) ->
  (name = "seasons" -> seasons_of h (JObject l) = Normal (JString "—")) ->
  (name = "updated" -> updated_of localeDate h (JObject l) = Normal "") ->
  render_markup (<[l := delete name o]> h) (JObject l) =
  render_markup h (JObject l).
Proof.
  intros Hl Hin Ht Hi Hg Hs Hu.
  assert (Hts : name <> "toString").
  { intros ->. apply list_elem_of_In in Hin. simpl in Hin.
    repeat (destruct Hin as [Hin|Hin]; [discriminate|]). exact Hin. }
  destruct (record_change_keeps_other_fields h l o (delete name o) name Hl)
    as (Hown & Ht' & Hi' & Hg' & Hs' & Hu'); [|exact Hts|].
  { intros other Hne. apply lookup_delete_ne. intros Heq. apply Hne.
    symmetry. exact Heq. }
  apply render_markup_congr; [| | | | |exact Hown].
  - destruct (decide (name = "title")) as [Heq|Hne]; [|apply Ht'; exact Hne].
    rewrite (Ht Heq). subst name. unfold title_of.
    rewrite Get_deleted. reflexivity.
  - destruct (decide (name = "image")) as [Heq|Hne]; [|apply Hi'; exact Hne].
    rewrite (Hi Heq). subst name. unfold image_of.
    rewrite Get_deleted. reflexivity.
  - destruct (decide (name = "genres")) as [Heq|Hne]; [|apply Hg'; exact Hne].
    rewrite (Hg Heq). subst name. unfold genres_of.
    rewrite Get_deleted. reflexivity.
  - destruct (decide (name = "seasons")) as [Heq|Hne]; [|apply Hs'; exact Hne].
    rewrite (Hs Heq). subst name. unfold seasons_of.
    rewrite Get_deleted. reflexivity.
  - destruct (decide (name = "updated")) as [Heq|Hne]; [|apply Hu'; exact Hne].
    rewrite (Hu Heq). subst name. unfold updated_of.
    rewrite Get_deleted. reflexivity.
Qed.

(** X10. Every falsy value of a field counts as missing, not only
    undefined and null: a record whose title, image, genres, season
    count or date is 0, NaN, false or the empty string renders exactly
    as the record without that field (so a podcast with 0 seasons shows
    the em-dash). *)
Theorem falsy_field_renders_like_missing h l o name v :
  h !! l = Some o ->
  name ∈ rendered_attributes ->
  o !! name = Some v ->
  ToBoolean v = false ->
  render_markup (<[l := delete name o]> h) (JObject l) =
  render_markup h (JObject l).
Proof.
  intros Hl Hin Hv Hf.
  assert (HG : Get h (JObject l) name = Normal v).
  { rewrite (Get_record h l o name Hl), Hv. reflexivity. }
  apply deleted_field_markup; [exact Hl | exact Hin | | | | | ]; intros ->.
  - unfold title_of. rewrite HG. simpl. rewrite or_else_falsy by exact Hf.
    reflexivity.
  - unfold image_of. rewrite HG. simpl. rewrite or_else_falsy by exact Hf.
    reflexivity.
  - unfold genres_of. rewrite HG. simpl.
    destruct v; try discriminate Hf;
      rewrite or_else_falsy by exact Hf; reflexivity.
  - unfold seasons_of. rewrite HG. simpl. rewrite or_else_falsy by exact Hf.
    reflexivity.
  - unfold updated_of. rewrite HG. simpl. rewrite Hf. reflexivity.
Qed.

(** X11. A genres sequence whose join is empty, the empty sequence
    first of all, shows no genres line: the record renders as the one
    without genres. *)
Theorem empty_genres_sequence_renders_like_missing h l o elems :
  h !! l = Some o ->
  o !! "genres" = Some (JArray elems) ->
  Array_join h ", " elems = Normal "" ->
  Array_join h ", " [] = Normal "" /\
  render_markup (<[l := delete "genres" o]> h) (JObject l) =
  render_markup h (JObject l).
Proof.
  intros Hl Hg Hj. split; [reflexivity|].
  apply deleted_field_markup; [exact Hl | | | | | | ];
    try (intros Heq; discriminate Heq).
  - apply list_elem_of_In. simpl. tauto.
  - intros _. unfold genres_of.
    rewrite (Get_record h l o "genres" Hl), Hg. simpl. rewrite Hj. reflexivity.
Qed.

(** The fragment of the attributes does not tell an empty attribute
    from an absent one. *)
Lemma attribute_fragment_text_ext a a' :
  (forall name, name ∈ rendered_attributes ->
                default "" (a' !! name) = default "" (a !! name)) ->
  attribute_fragment localeDate a' = attribute_fragment localeDate a.
Proof.
  intros Hsame.
  assert (Htext : forall name fallback, name ∈ rendered_attributes ->
            attribute_text a' name fallback = attribute_text a name fallback).
  { intros name fallback Hin. unfold attribute_text.
    specialize (Hsame name Hin).
    destruct (a' !! name) as [x|], (a !! name) as [y|]; simpl in Hsame;
      subst; reflexivity. }
  assert (Hupd :
    match a' !! "updated" with
    | Some v => if String.eqb v "" then "" else localeDate (JString v)
    | None => ""
    end =
    match a !! "updated" with
    | Some v => if String.eqb v "" then "" else localeDate (JString v)
    | None => ""
    end).
  { assert (Hin : "updated" ∈ rendered_attributes)
      by (apply list_elem_of_In; simpl; tauto).
    specialize (Hsame "updated" Hin).
    destruct (a' !! "updated") as [x|], (a !! "updated") as [y|];
      simpl in Hsame; subst; reflexivity. }
  unfold attribute_fragment. rewrite Hupd.
  rewrite !Htext by (apply list_elem_of_In; simpl; tauto).
  reflexivity.
Qed.

(** X12. An attribute set to the empty string renders as if it were
    absent: without property data, the card with [name] empty and the
    card without [name] get the same shadow root. *)
Theorem empty_attribute_renders_like_absent s name :
  ToBoolean (_podcast s) = false ->
  shadowRoot_innerHTML
    (exec render (with_attributes (<[name := ""]> (attributes s)) s)) =
  shadowRoot_innerHTML
    (exec render (with_attributes (delete name (attributes s)) s)).
Proof.
  intros H. rewrite !render_shadow_root. simpl. rewrite H.
  apply attribute_fragment_text_ext. intros n _.
  destruct (decide (name = n)) as [->|Hne].
  - rewrite lookup_insert_eq, lookup_delete_eq. reflexivity.
  - rewrite lookup_insert_ne, lookup_delete_ne by exact Hne. reflexivity.
Qed.

(** *** When rendering cannot throw *)

Lemma printable_element_strings h elems :
  Forall (fun v => printable h v = true -> exists s, ToString h v = Normal s)
    elems ->
  forallb (printable h) elems = true ->
  exists ss, element_strings h elems = Normal ss.
Proof.
  induction 1 as [|x r Hx _ IH]; intros Hall.
  - exists []. reflexivity.
  - simpl in Hall. apply andb_true_iff in Hall as [Hpx Hpr].
    destruct (IH Hpr) as [ss Hss]. simpl.
    destruct (is_nullish x).
    + simpl. rewrite Hss. eexists. reflexivity.
    + destruct (Hx Hpx) as [sx Hsx]. rewrite Hsx. simpl. rewrite Hss.
      eexists. reflexivity.
Qed.

Lemma printable_ToString h v :
  printable h v = true -> exists s, ToString h v = Normal s.
Proof.
  induction v as [| |b|n|s|d|elems IH|l] using JSValue_nested_ind;
    intros Hp; try (eexists; reflexivity).
  - destruct b; eexists; reflexivity.
  - discriminate Hp.
  - rewrite ToString_array. unfold Array_join.
    destruct (printable_element_strings h elems IH Hp) as [ss Hss].
    rewrite Hss. eexists. reflexivity.
  - simpl in Hp. apply negb_true_iff in Hp. simpl. rewrite Hp.
    eexists. reflexivity.
Qed.








End CardSequences.

(** ** The attribute-only card *)

Lemma simple_render_up_to_date e : simple_up_to_date (SimpleCard.render e).
Proof. reflexivity. Qed.

Lemma simple_attribute_or_ext e e' name fallback :
  SimpleCard.attributes e' !! name = SimpleCard.attributes e !! name ->
  SimpleCard.attribute_or e' name fallback =
  SimpleCard.attribute_or e name fallback.
Proof.
  intros H. unfold SimpleCard.attribute_or, SimpleCard.getAttribute.
  rewrite H. reflexivity.
Qed.

Lemma simple_up_to_date_ext e e' :
  simple_up_to_date e ->
  SimpleCard.shadowRoot_innerHTML e' = SimpleCard.shadowRoot_innerHTML e ->
  (forall name, name ∈ SimpleCardElement.observedAttributes ->
     SimpleCard.attributes e' !! name = SimpleCard.attributes e !! name) ->
  simple_up_to_date e'.
Proof.
  intros Hup Hh Hattr. unfold simple_up_to_date in *. rewrite Hh, Hup.
  rewrite !(simple_attribute_or_ext e e')
    by (apply Hattr, list_elem_of_In; simpl; tauto).
  reflexivity.
Qed.

Lemma simple_setAttribute_up_to_date name value e :
  simple_up_to_date e ->
  simple_up_to_date (SimpleCardElement.setAttribute name value e).
Proof.
  intros Hup. unfold SimpleCardElement.setAttribute. cbv zeta.
  set (e' := SimpleCardElement.with_attributes
               (<[name := value]> (SimpleCard.attributes e)) e).
  destruct (bool_decide_reflect (name ∈ SimpleCardElement.observedAttributes))
    as [Hobs|Hout].
  - unfold SimpleCardElement.attributeChangedCallback.
    destruct (bool_decide_reflect
                (SimpleCard.attributes e !! name <> Some value)) as [Hne|Heq].
    + apply simple_render_up_to_date.
    + apply dec_stable in Heq.
      apply (simple_up_to_date_ext e e' Hup); [reflexivity|].
      intros n _. simpl. rewrite insert_id by exact Heq. reflexivity.
  - apply (simple_up_to_date_ext e e' Hup); [reflexivity|].
    intros n Hn. simpl. apply lookup_insert_ne. intros ->. apply Hout, Hn.
Qed.

(** X14. The attribute-only card observes exactly the attributes it
    renders: once connected, after any sequence of attribute changes its
    shadow root is the fragment of its current title, image and
    description (or their defaults). *)
Theorem simple_card_stays_up_to_date e l :
  simple_up_to_date (simple_set_all l (SimpleCardElement.connectedCallback e)).
Proof.
  unfold simple_set_all, SimpleCardElement.connectedCallback.
  assert (H := simple_render_up_to_date e).
  revert H. generalize (SimpleCard.render e). clear e.
  induction l as [|[name value] l IH]; intros e He; [exact He|].
  simpl. apply IH, simple_setAttribute_up_to_date, He.
Qed.

(** X15. On the attribute-only card too an empty attribute renders as
    an absent one: the default text or image takes its place. *)
Theorem simple_empty_attribute_renders_like_absent e name :
  SimpleCard.shadowRoot_innerHTML
    (SimpleCard.render
       (SimpleCardElement.with_attributes
          (<[name := ""]> (SimpleCard.attributes e)) e)) =
  SimpleCard.shadowRoot_innerHTML
    (SimpleCard.render
       (SimpleCardElement.with_attributes
          (delete name (SimpleCard.attributes e)) e)).
Proof.
  assert (H : forall n fallback,
    SimpleCard.attribute_or
      (SimpleCardElement.with_attributes
         (<[name := ""]> (SimpleCard.attributes e)) e) n fallback =
    SimpleCard.attribute_or
      (SimpleCardElement.with_attributes
         (delete name (SimpleCard.attributes e)) e) n fallback).
  { intros n fallback.
    unfold SimpleCard.attribute_or, SimpleCard.getAttribute. simpl.
    destruct (decide (name = n)) as [->|Hne].
    - rewrite lookup_insert_eq, lookup_delete_eq. reflexivity.
    - rewrite lookup_insert_ne, lookup_delete_ne by exact Hne. reflexivity. }
  unfold SimpleCard.render. simpl. rewrite !H. reflexivity.
Qed.

(** ** The card factory *)

Section FactoryProperties.

Variable GenreService_getNames : JSValue -> completion (list JSValue).
Variable DateUtils_format : JSValue -> completion JSValue.
Variable string_exceeds_one : string -> bool.
Variable World : Type.

Abbreviation createPodcastCard :=
  (CardFactory.createPodcastCard GenreService_getNames DateUtils_format
     string_exceeds_one World).
Abbreviation exceeds_one := (CardFactory.exceeds_one string_exceeds_one).

(** One step back through a chain of evaluations that completed. *)
Ltac step_back H :=
  match type of H with
  | cbind ?c _ = Normal _ =>
      let E := fresh "E" in
      destruct c eqn:E; [simpl in H | discriminate H]
  end.

(** What a card that was built is made of. *)
Lemma createPodcastCard_inv h podcast onClick card :
  createPodcastCard h podcast onClick = Normal card ->
  exists genres names id id_s image image_s title title_s seasons seasons_s
         plural spans updated formatted formatted_s,
    Get h podcast "genres" = Normal genres /\
    GenreService_getNames genres = Normal names /\
    Get h podcast "id" = Normal id /\ ToString h id = Normal id_s /\
    Get h podcast "image" = Normal image /\ ToString h image = Normal image_s /\
    Get h podcast "title" = Normal title /\ ToString h title = Normal title_s /\
    Get h podcast "seasons" = Normal seasons /\
    ToString h seasons = Normal seasons_s /\
    exceeds_one h seasons = Normal plural /\
    CardFactory.tag_spans h names = Normal spans /\
    Get h podcast "updated" = Normal updated /\
    DateUtils_format updated = Normal formatted /\
    ToString h formatted = Normal formatted_s /\
    card = {| CardFactory.className := "card";
              CardFactory.dataset_id := id_s;
              CardFactory.innerHTML :=
                CardFactory.fragment image_s title_s seasons_s
                  (if plural then "s" else "") (String.concat "" spans)
                  formatted_s;
              CardFactory.click_listeners := [fun w => onClick podcast w] |}.
Proof.
  unfold CardFactory.createPodcastCard. intros H.
  do 15 step_back H. injection H as <-.
  repeat eexists; eassumption.
Qed.


(** X17. The factory has no defaults: a record that lacks a title or an
    image gives a card that shows the text undefined in its place. *)
Theorem factory_shows_undefined_for_missing h l o onClick card :
  h !! l = Some o ->
  createPodcastCard h (JObject l) onClick = Normal card ->
  exists image title seasons plural tags updated,
    CardFactory.innerHTML World card =
      CardFactory.fragment image title seasons plural tags updated /\
    (o !! "title" = None -> title = "undefined") /\
    (o !! "image" = None -> image = "undefined").
Proof.
  intros Hl Hc.
  destruct (createPodcastCard_inv h (JObject l) onClick card Hc)
    as (genres & names & id & id_s & image & image_s & title & title_s &
        seasons & seasons_s & plural & spans & updated & formatted &
        formatted_s & _ & _ & _ & _ & Gi & Ti & Gt & Tt & _ & _ & _ & _ & _ &
        _ & _ & ->).
  rewrite (Get_record h l o "image" Hl) in Gi.
  rewrite (Get_record h l o "title" Hl) in Gt.
  exists image_s, title_s, seasons_s, (if plural then "s" else ""),
    (String.concat "" spans), formatted_s.
  split; [reflexivity|]. split; intros Hnone.
  - rewrite Hnone in Gt. injection Gt as <-. injection Tt as <-. reflexivity.
  - rewrite Hnone in Gi. injection Gi as <-. injection Ti as <-. reflexivity.
Qed.

Lemma printable_tag_spans h names :
  forallb (printable h) names = true ->
  exists spans, CardFactory.tag_spans h names = Normal spans.
Proof.
  induction names as [|g r IH]; intros Hp.
  - exists []. reflexivity.
  - simpl in Hp. apply andb_true_iff in Hp as [Hg Hr].
    destruct (printable_ToString h g Hg) as [s Hs].
    destruct (IH Hr) as [ss Hss]. simpl. rewrite Hs. simpl. rewrite Hss.
    eexists. reflexivity.
Qed.

Lemma printable_exceeds_one h v :
  printable h v = true -> exists b, exceeds_one h v = Normal b.
Proof.
  intros Hp. destruct v as [| |b|n|s|d|elems|x];
    try (eexists; reflexivity).
  - destruct n as [z| |neg]; eexists; reflexivity.
  - discriminate Hp.
  - unfold CardFactory.exceeds_one.
    destruct (printable_ToString h _ Hp) as [s Hs]. rewrite Hs.
    eexists. reflexivity.
  - unfold CardFactory.exceeds_one.
    destruct (printable_ToString h _ Hp) as [s Hs]. rewrite Hs.
    eexists. reflexivity.
Qed.

(** X18. The factory builds a card for every record object whose
    fields have a string conversion, provided its two collaborators
    return such values; the div has the class card, and a click on it
    calls [onClick] once, with the very podcast the card was built
    from. *)
Theorem factory_builds_clickable_card h l o onClick :
  h !! l = Some o ->
  (forall name v, o !! name = Some v -> printable h v = true) ->
  (forall genres, exists names,
      GenreService_getNames genres = Normal names /\
      forallb (printable h) names = true) ->
  (forall updated, exists formatted,
      DateUtils_format updated = Normal formatted /\
      printable h formatted = true) ->
  exists card,
    createPodcastCard h (JObject l) onClick = Normal card /\
    CardFactory.className World card = "card" /\
    forall w, CardFactory.click World card w = onClick (JObject l) w.
Proof.
  intros Hl Hp Hnames Hformat.
  assert (Hfield : forall name,
            printable h (default JUndefined (o !! name)) = true).
  { intros name. destruct (o !! name) as [v|] eqn:Hv; [|reflexivity].
    exact (Hp name v Hv). }
  destruct (Hnames (default JUndefined (o !! "genres")))
    as (names & Enames & Pnames).
  destruct (Hformat (default JUndefined (o !! "updated")))
    as (formatted & Eformat & Pformat).
  destruct (printable_ToString h _ (Hfield "id")) as [id_s Eid].
  destruct (printable_ToString h _ (Hfield "image")) as [image_s Eimage].
  destruct (printable_ToString h _ (Hfield "title")) as [title_s Etitle].
  destruct (printable_ToString h _ (Hfield "seasons")) as [seasons_s Eseasons].
  destruct (printable_exceeds_one h _ (Hfield "seasons")) as [plural Eplural].
  destruct (printable_tag_spans h names Pnames) as [spans Espans].
  destruct (printable_ToString h formatted Pformat) as [formatted_s Ef].
  eexists. split; [|split].
  - unfold CardFactory.createPodcastCard.
    rewrite (Get_record h l o "genres" Hl), (Get_record h l o "id" Hl),
      (Get_record h l o "image" Hl), (Get_record h l o "title" Hl),
      (Get_record h l o "seasons" Hl), (Get_record h l o "updated" Hl).
    cbn [cbind]. rewrite Enames. cbn [cbind]. rewrite Eid. cbn [cbind].
    rewrite Eimage. cbn [cbind]. rewrite Etitle. cbn [cbind].
    rewrite Eseasons. cbn [cbind]. rewrite Eplural. cbn [cbind].
    rewrite Espans. cbn [cbind]. rewrite Eformat. cbn [cbind].
    rewrite Ef. cbn [cbind]. reflexivity.
  - reflexivity.
  - intros w. reflexivity.
Qed.

End FactoryProperties.

(** ** Witnesses of the further properties *)

Lemma property_data_hides_witness :
  shadowRoot_innerHTML
    (exec (setAttribute sample_localeDate "title" "Renamed")
       connected_pod_a_card) =
  shadowRoot_innerHTML connected_pod_a_card.
Proof.
  refine (proj1 (property_data_hides_attribute_changes sample_localeDate
                   connected_pod_a_card "title" "Renamed" _ _));
    vm_compute; reflexivity.
Defined.

Lemma description_change_witness :
  render_calls
    (exec (setAttribute sample_localeDate "description" "A show")
       connected_pod_a_card) = S (render_calls connected_pod_a_card).
Proof.
  refine (proj1 (description_change_rerenders_for_nothing sample_localeDate
                   connected_pod_a_card "A show" _ _)).
  - vm_compute. reflexivity.
  - vm_compute. discriminate.
Defined.

Lemma failed_set_witness :
  outcome get_podcast
    (exec (set_podcast sample_localeDate (JObject 1%positive)) symbol_card) =
  Normal (JObject 1%positive).
Proof.
  refine (proj1 (proj2 (failed_set_keeps_value_and_old_markup
                          sample_localeDate (JObject 1%positive) symbol_card
                          TypeError _))).
  vm_compute. reflexivity.
Defined.

Lemma falsy_field_witness :
  render_markup sample_localeDate
    (<[1%positive := delete "seasons" zero_seasons]>
       {[ 1%positive := zero_seasons ]}) (JObject 1%positive) =
  render_markup sample_localeDate {[ 1%positive := zero_seasons ]}
    (JObject 1%positive).
Proof.
  refine (falsy_field_renders_like_missing sample_localeDate
            {[ 1%positive := zero_seasons ]} 1%positive zero_seasons
            "seasons" (JNumber (NInt 0)) _ _ _ _).
  - vm_compute. reflexivity.
  - apply list_elem_of_In. simpl. tauto.
  - vm_compute. reflexivity.
  - reflexivity.
Defined.

Lemma empty_genres_witness :
  render_markup sample_localeDate
    (<[1%positive := delete "genres" no_genres_yet]>
       {[ 1%positive := no_genres_yet ]}) (JObject 1%positive) =
  render_markup sample_localeDate {[ 1%positive := no_genres_yet ]}
    (JObject 1%positive).
Proof.
  refine (proj2 (empty_genres_sequence_renders_like_missing sample_localeDate
                   {[ 1%positive := no_genres_yet ]} 1%positive no_genres_yet
                   [] _ _ _)); vm_compute; reflexivity.
Defined.

Lemma empty_attribute_witness :
  shadowRoot_innerHTML
    (exec (render sample_localeDate)
       (with_attributes (<["title" := ""]> (attributes hostile_card))
          hostile_card)) =
  shadowRoot_innerHTML
    (exec (render sample_localeDate)
       (with_attributes (delete "title" (attributes hostile_card))
          hostile_card)).
Proof.
  exact (empty_attribute_renders_like_absent sample_localeDate hostile_card
           "title" eq_refl).
Defined.



Lemma factory_undefined_witness :
  exists image title seasons plural tags updated,
    CardFactory.innerHTML nat seasons_only_card =
      CardFactory.fragment image title seasons plural tags updated /\
    (seasons_only !! "title" = None -> title = "undefined") /\
    (seasons_only !! "image" = None -> image = "undefined").
Proof.
  refine (factory_shows_undefined_for_missing sample_getNames sample_format
            sample_exceeds_one nat {[ 1%positive := seasons_only ]} 1%positive
            seasons_only count_click seasons_only_card _ _);
    vm_compute; reflexivity.
Defined.

Lemma factory_builds_witness :
  exists card,
    CardFactory.createPodcastCard sample_getNames sample_format
      sample_exceeds_one nat {[ 1%positive := title_only ]}
      (JObject 1%positive) count_click = Normal card /\
    CardFactory.className nat card = "card" /\
    forall w, CardFactory.click nat card w = count_click (JObject 1%positive) w.
Proof.
  refine (factory_builds_clickable_card sample_getNames sample_format
            sample_exceeds_one nat {[ 1%positive := title_only ]} 1%positive
            title_only count_click _ _ _ _).
  - vm_compute. reflexivity.
  - intros name v Hv. unfold title_only in Hv.
    apply lookup_singleton_Some in Hv as [_ <-]. reflexivity.
  - intros genres. eexists. split; reflexivity.
  - intros updated. eexists. split; reflexivity.
Defined.
